(** * Vertex AI Model Garden MaaS base: family resolution, request building,
      dispatch with retry, and server-sent-event decoding.

    Shallow embedding of
    [libs/vertexai/langchain_google_vertexai/model_garden_maas/_base.py].

    Conventions.
    - A Python [str] is a Rocq [string] holding its UTF-8 bytes; [bytes] is a
      [string] as well.
    - A Python [dict] with string keys is a [gmap string pyval].
    - A raised exception is the [Raise] branch of [result].
    - The HTTP client, the event source and their [json()] methods belong to
      [httpx] / [httpx_sse]; they appear as the records [Response],
      [sse_event] and the scripted [Transport]. *)

From Stdlib Require Import ZArith String Ascii List Bool Lia.
From stdpp Require Import gmap strings list pretty.

Local Open Scope Z_scope.
Set Warnings "-register-all".

(** ** Python values and exceptions *)

Module Py.

(** [class VertexMaaSModelFamily(str, Enum)]: two members, declared in this
    order with [auto()]. *)
Inductive VertexMaaSModelFamily := LLAMA | MISTRAL.

#[global] Instance VertexMaaSModelFamily_eq_dec : EqDecision VertexMaaSModelFamily.
Proof. solve_decision. Defined.

(** The values that flow through [Dict[str, Any]] parameters and through
    decoded JSON bodies.  Nested containers are value trees. *)
Inductive pyval :=
| PNone
| PBool (b : bool)
| PInt (z : Z)
| PStr (s : string)
| PFamily (f : VertexMaaSModelFamily)
| PList (l : list pyval)
| PDict (l : list (string * pyval)).

(** Python truthiness, as used by [if stream:]. *)
Definition truthy (v : pyval) : bool :=
  match v with
  | PNone => false
  | PBool b => b
  | PInt z => negb (z =? 0)
  | PStr s => negb (String.eqb s EmptyString)
  | PFamily _ => true
  | PList l => negb (Nat.eqb (length l) 0)
  | PDict l => negb (Nat.eqb (length l) 0)
  end.

Record Response := {
  status_code : Z;          (* response.status_code *)
  url : string;             (* str(response.url) *)
  content : string;         (* response.read(): the body bytes.  A posted
                               response holds them when it is returned; for
                               the response of an event-stream connection
                               they are what reading the body gives, and a
                               failure of that read is not modelled *)
  json : option pyval       (* response.json(); None when the body is no JSON *)
}.

Inductive exn :=
| ValueError (msg : string)
| KeyError (key : string)
| AttributeError (msg : string)
| UnicodeDecodeError
| JSONDecodeError
| RequestError (msg : string)        (* httpx.RequestError and its subclasses *)
| StreamError (msg : string)         (* httpx.StreamError and its subclasses *)
| HTTPStatusError (msg : string) (response : Response).

Inductive result (A : Type) :=
| Ok (a : A)
| Raise (e : exn).
Arguments Ok {A} a.
Arguments Raise {A} e.

Definition bind {A B} (r : result A) (k : A -> result B) : result B :=
  match r with
  | Ok a => k a
  | Raise e => Raise e
  end.

End Py.
Export Py.

(** ** String primitives: [str.lower], [str.split(sep)[0]], [bytes.decode] *)

Module Str.

Definition code (c : ascii) : Z := Z.of_N (N_of_ascii c).

(** [str.lower] on the ASCII letters A..Z.  Bytes of other code points are
    left as they are: every identifier of the allow-lists is ASCII.  On an
    ASCII string ([is_ascii] below) this is [str.lower] exactly; on a string
    with other code points only the statements guarded by [is_ascii] speak
    of the text [str.lower] produces. *)
Definition lower_ascii (c : ascii) : ascii :=
  if (65 <=? code c) && (code c <=? 90)
  then ascii_of_N (N_of_ascii c + 32)
  else c.

Fixpoint lower (s : string) : string :=
  match s with
  | EmptyString => EmptyString
  | String c r => String (lower_ascii c) (lower r)
  end.

(** The strings all of whose code points are ASCII. *)
Fixpoint is_ascii (s : string) : bool :=
  match s with
  | EmptyString => true
  | String c r => (code c <=? 127) && is_ascii r
  end.

(** [s.split(sep)[0]] for a one-character separator: the part of [s] before
    the first [sep], all of [s] when [sep] does not occur. *)
Fixpoint split_head (sep : ascii) (s : string) : string :=
  match s with
  | EmptyString => EmptyString
  | String c r => if Ascii.eqb c sep then EmptyString else String c (split_head sep r)
  end.

Fixpoint occurs (sep : ascii) (s : string) : bool :=
  match s with
  | EmptyString => false
  | String c r => Ascii.eqb c sep || occurs sep r
  end.

Definition between (lo hi : Z) (c : ascii) : bool :=
  (lo <=? code c) && (code c <=? hi).

(** Well-formed UTF-8 (Unicode, table 3-7): what [bytes.decode("utf-8")]
    accepts in its default strict mode. *)
Fixpoint utf8_valid (s : string) : bool :=
  match s with
  | EmptyString => true
  | String a r =>
    if code a <=? 127 then utf8_valid r
    else if between 194 223 a then
      match r with
      | String b r1 => between 128 191 b && utf8_valid r1
      | _ => false
      end
    else if between 224 239 a then
      match r with
      | String b (String c r2) =>
        (if code a =? 224 then between 160 191 b
         else if code a =? 237 then between 128 159 b
         else between 128 191 b)
        && between 128 191 c && utf8_valid r2
      | _ => false
      end
    else if between 240 244 a then
      match r with
      | String b (String c (String d r3)) =>
        (if code a =? 240 then between 144 191 b
         else if code a =? 244 then between 128 143 b
         else between 128 191 b)
        && between 128 191 c && between 128 191 d && utf8_valid r3
      | _ => false
      end
    else false
  end.

(** [b.decode("utf-8")] *)
Definition decode_utf8 (b : string) : result string :=
  if utf8_valid b then Ok b else Raise UnicodeDecodeError.

End Str.

(** ** Model family resolver *)

(** The member values.  [auto()] numbers the members 1, 2 and the [str]
    mixin turns the number into the member's string value. *)
Definition member_value (f : VertexMaaSModelFamily) : string :=
  match f with
  | LLAMA => "1"
  | MISTRAL => "2"
  end.

Definition llama_models : gset string :=
  {[ "meta/llama3-405b-instruct-maas" ]}.

Definition mistral_models : gset string :=
  {[ "mistral-nemo@2407"; "mistral-large@2407" ]}.

(** [VertexMaaSModelFamily._missing_] *)
Definition _missing_ (value : pyval) : result VertexMaaSModelFamily :=
  match value with
  | PStr s =>
    let model_name := Str.lower s in
    if bool_decide (model_name ∈ llama_models) then Ok LLAMA
    else if bool_decide (model_name ∈ mistral_models) then Ok MISTRAL
    else Raise (ValueError ("Model " +:+ model_name +:+ " is not supported yet!"))
  | PFamily f =>
    (* a member is a str whose text is its value *)
    Raise (ValueError ("Model " +:+ member_value f +:+ " is not supported yet!"))
  | _ => Raise (AttributeError "lower")
  end.

(** The lookup of a member by value that [Enum] performs when the class is
    called. *)
Definition value2member (value : pyval) : option VertexMaaSModelFamily :=
  match value with
  | PFamily f => Some f
  | PStr s =>
    if String.eqb s (member_value LLAMA) then Some LLAMA
    else if String.eqb s (member_value MISTRAL) then Some MISTRAL
    else None
  | _ => None
  end.

(** [VertexMaaSModelFamily(value)]: the member whose value is [value] when
    there is one, and [_missing_(value)] otherwise. *)
Definition VertexMaaSModelFamily_call (value : pyval) : result VertexMaaSModelFamily :=
  match value2member value with
  | Some f => Ok f
  | None => _missing_ value
  end.

(** ** The transport, as this module sees it *)

(** One server-sent event: [event.data] and the result of [event.json()],
    [None] when the data is no JSON text. *)
Record sse_event := {
  data : string;
  event_json : option pyval
}.

(** What the server answers to one request: the response and, on an
    event-stream connection, the events that follow it. *)
Record Exchange := {
  response : Response;
  events : list sse_event
}.

(** A client is scripted by the outcome of each request it is asked to send,
    numbered from 0 in the order of sending: a transport-level exception or
    the server's answer. *)
Definition Transport := nat -> result Exchange.

(** A request as handed to the client. *)
Record Request := {
  method : string;
  path : string;                      (* the [url] argument *)
  body : gmap string pyval;           (* the [json] argument *)
  headers : list (string * string)
}.

(** Computations that send requests: the state is the log of the requests
    sent so far. *)
Definition M (A : Type) := list Request -> result A * list Request.

Definition pure {A} (a : A) : M A := fun log => (Ok a, log).

Definition and_then {A B} (m : M A) (k : A -> M B) : M B :=
  fun log =>
    match m log with
    | (Ok a, log1) => k a log1
    | (Raise e, log1) => (Raise e, log1)
    end.

Definition lift {A} (r : result A) : M A := fun log => (r, log).

Notation "'let*' x := m 'in' k" := (and_then m (fun x => k))
  (at level 10, x name, m at level 100, k at level 200).

(** Handing [req] to [client]: the request is sent and the script answers. *)
Definition send (client : Transport) (req : Request) : M Exchange :=
  fun log => (client (length log), log ++ [req]).

(** ** Model configuration *)

(** [_BaseVertexMaasModelGarden].  [model_name], [full_model_name],
    [location], [project], [max_retries], [client] and [async_client] are
    fields of the base class [_VertexAIBase]; [model_family] defaults to
    [None]. *)
Record _BaseVertexMaasModelGarden := {
  model_name : string;
  full_model_name : string;
  location : string;
  project : string;
  max_retries : Z;
  client : Transport;
  async_client : Transport;
  append_tools_to_system_message : bool;
  model_family : option VertexMaaSModelFamily
}.

(** [validate_environment_model_garden]: the [pre=True] root validator, run
    on the raw field values when the configuration is constructed. *)
Definition validate_environment_model_garden (values : gmap string pyval)
  : result (gmap string pyval) :=
  match values !! "model_name" with
  | None => Raise (KeyError "model_name")
  | Some requested =>
    bind (VertexMaaSModelFamily_call requested) (fun family =>
    let values := <["model_family" := PFamily family]> values in
    if decide (family = MISTRAL) then
      match requested with
      | PStr s =>
        let model := Str.split_head "@" s in
        let values := <["full_model_name" := requested]> values in
        Ok (<["model_name" := PStr model]> values)
      | PFamily f =>
        let model := Str.split_head "@" (member_value f) in
        let values := <["full_model_name" := requested]> values in
        Ok (<["model_name" := PStr model]> values)
      | _ => Raise (AttributeError "split")
      end
    else Ok values)
  end.

(** ** Request builder *)

(** [_enrich_params] on dict contents: the content of the dict it returns
    (the deep copy, with "safe_prompt" popped and "model" set) as a function
    of the content of the dict it is given.  Nested lists and dicts are
    value trees, so a copy shares nothing with its original.  The
    store-level [Heap._enrich_params] below makes the copy an object of its
    own. *)
Definition enriched (self : _BaseVertexMaasModelGarden)
    (params : gmap string pyval) : gmap string pyval :=
  <["model" := PStr (model_name self)]> (delete "safe_prompt" params).

(** [_get_url_part] *)
Definition _get_url_part (self : _BaseVertexMaasModelGarden) (stream : bool) : string :=
  if decide (model_family self = Some MISTRAL) then
    if stream then
      "publishers/mistralai/models/" +:+ full_model_name self +:+ ":streamRawPredict"
    else
      "publishers/mistralai/models/" +:+ full_model_name self +:+ ":rawPredict"
  else "openapi/chat/completions".

(** [get_url] *)
Definition get_url (self : _BaseVertexMaasModelGarden) : string :=
  let version :=
    if decide (model_family self = Some LLAMA) then "v1beta1" else "v1" in
  "https://" +:+ location self +:+ "-aiplatform.googleapis.com/" +:+ version
  +:+ "/projects/" +:+ project self +:+ "/locations/" +:+ location self.

(** ** Parameter dicts as heap objects

    [_enrich_params] receives a reference to the caller's dict.  The store
    maps an object identity to the content of the dict it denotes. *)

Module Heap.

Abbreviation loc := positive.
Abbreviation heap := (gmap loc (gmap string pyval)).

(** [copy.deepcopy(d)]: a new object with the content of [d]. *)
Definition deepcopy (d : loc) (h : heap) : option (loc * heap) :=
  match h !! d with
  | Some c => let q := fresh (dom h) in Some (q, <[q := c]> h)
  | None => None
  end.

(** [d.pop(key, None)] *)
Definition pop (d : loc) (key : string) (h : heap) : heap :=
  alter (delete key) d h.

(** [d[key] = v] *)
Definition setitem (d : loc) (key : string) (v : pyval) (h : heap) : heap :=
  alter (insert key v) d h.

(** [_enrich_params]: returns the identity of the dict it built and the store
    after the call; [None] only for a reference that denotes no dict. *)
Definition _enrich_params (self : _BaseVertexMaasModelGarden) (params : loc)
    (h : heap) : option (loc * heap) :=
  match deepcopy params h with
  | Some (copy_params, h) =>
    let h := pop copy_params "safe_prompt" h in
    let h := setitem copy_params "model" (PStr (model_name self)) h in
    Some (copy_params, h)
  | None => None
  end.

(** [n] successive calls of [_enrich_params] on the same caller object; the
    identities of the payloads built, oldest first. *)
Fixpoint enrich_calls (self : _BaseVertexMaasModelGarden) (params : loc)
    (n : nat) (h : heap) : option (list loc * heap) :=
  match n with
  | O => Some ([], h)
  | S n' =>
    match _enrich_params self params h with
    | Some (q, h1) =>
      match enrich_calls self params n' h1 with
      | Some (qs, h2) => Some (q :: qs, h2)
      | None => None
      end
    | None => None
    end
  end.

End Heap.

(** ** Dispatcher *)

(** [httpx.codes.is_error] *)
Definition is_error (status : Z) : bool := (400 <=? status) && (status <=? 599).

(** [_raise_on_error] *)
Definition _raise_on_error (response : Response) : result unit :=
  if is_error (status_code response) then
    bind (Str.decode_utf8 (content response)) (fun error_message =>
    Raise (HTTPStatusError
             ("Error response " +:+ pretty (status_code response)
              +:+ " while fetching " +:+ url response +:+ ": " +:+ error_message)
             response))
  else Ok tt.

(** [_araise_on_error] *)
Definition _araise_on_error (response : Response) : result unit :=
  if is_error (status_code response) then
    bind (Str.decode_utf8 (content response)) (fun error_message =>
    Raise (HTTPStatusError
             ("Error response " +:+ pretty (status_code response)
              +:+ " while fetching " +:+ url response +:+ ": " +:+ error_message)
             response))
  else Ok tt.

(** [response.json()] *)
Definition response_json (response : Response) : result pyval :=
  match json response with
  | Some v => Ok v
  | None => Raise JSONDecodeError
  end.

(** What a consumer that runs a generator to its end observes: the records
    yielded, how many events were taken from the event source, the data of
    the events on which [json()] was called, and the exception that ended
    the iteration, if one did. *)
Record StreamOutcome := {
  yielded : list pyval;
  events_read : nat;
  decoded : list string;
  raised : option exn
}.

Definition stream_failed (e : exn) : StreamOutcome :=
  {| yielded := []; events_read := 0; decoded := []; raised := Some e |}.

(** The loop over the event source, the same in [iter_sse] and [_aiter_sse]:
      [for event in ...: if event.data == "[DONE]": return; yield event.json()] *)
Fixpoint sse_loop (evs : list sse_event) : StreamOutcome :=
  match evs with
  | [] => {| yielded := []; events_read := 0; decoded := []; raised := None |}
  | event :: rest =>
    if String.eqb (data event) "[DONE]" then
      {| yielded := []; events_read := 1; decoded := []; raised := None |}
    else
      match event_json event with
      | None =>
        {| yielded := []; events_read := 1; decoded := [data event];
           raised := Some JSONDecodeError |}
      | Some record =>
        let o := sse_loop rest in
        {| yielded := record :: yielded o; events_read := S (events_read o);
           decoded := data event :: decoded o; raised := raised o |}
      end
  end.

(** A generator object: its body, run when it is consumed. *)
Definition Gen := list Request -> StreamOutcome * list Request.

(** What a completion call returns: a decoded record, or a generator. *)
Inductive Completion :=
| Decoded (record : pyval)
| Lazy (g : Gen).

Definition sse_request (url_part : string) (kwargs : gmap string pyval) : Request :=
  {| method := "POST"; path := url_part; body := kwargs;
     headers := [("Accept", "text/event-stream")] |}.

Definition post_request (url_part : string) (kwargs : gmap string pyval) : Request :=
  {| method := "POST"; path := url_part; body := kwargs; headers := [] |}.

(** [_aiter_sse]: entering [event_source_mgr] opens the connection. *)
Definition _aiter_sse (event_source_mgr : M Exchange) : Gen :=
  fun log =>
    match event_source_mgr log with
    | (Raise e, log1) => (stream_failed e, log1)
    | (Ok event_source, log1) =>
      match _araise_on_error (response event_source) with
      | Raise e => (stream_failed e, log1)
      | Ok _ => (sse_loop (events event_source), log1)
      end
    end.

(** The retry primitive of [langchain_core], [create_base_retry_decorator]:
    a tenacity [retry] with [reraise=True], [stop_after_attempt(max_retries)]
    and [retry_if_exception_type] over [error_types].  The call is attempted;
    while it raises one of [error_types] and fewer than [max_retries]
    attempts were made it is attempted again; the last exception is raised
    otherwise.  The waits between attempts are not modelled. *)
Fixpoint retrying {A} (retryable : exn -> bool) (retries_left : nat) (f : M A) : M A :=
  fun log =>
    match f log with
    | (Raise e, log1) =>
      if retryable e then
        match retries_left with
        | O => (Raise e, log1)
        | S n => retrying retryable n f log1
        end
      else (Raise e, log1)
    | (Ok a, log1) => (Ok a, log1)
    end.

Definition create_base_retry_decorator {A} (error_types : list (exn -> bool))
    (max_retries : Z) (f : M A) : M A :=
  retrying (fun e => existsb (fun t => t e) error_types)
           (Z.to_nat (max_retries - 1)) f.

Definition is_RequestError (e : exn) : bool :=
  match e with RequestError _ => true | _ => false end.

Definition is_StreamError (e : exn) : bool :=
  match e with StreamError _ => true | _ => false end.

(** [_create_retry_decorator] *)
Definition _create_retry_decorator {A} (llm : _BaseVertexMaasModelGarden)
    (f : M A) : M A :=
  let errors := [is_RequestError; is_StreamError] in
  create_base_retry_decorator errors (max_retries llm) f.

(** [kwargs["stream"]] once the key is known to be there. *)
Definition getitem_stream (kwargs : gmap string pyval) : pyval :=
  default PNone (kwargs !! "stream").

(** [if "stream" not in kwargs: kwargs["stream"] = False] *)
Definition default_stream (kwargs : gmap string pyval) : gmap string pyval :=
  match kwargs !! "stream" with
  | None => <["stream" := PBool false]> kwargs
  | Some _ => kwargs
  end.

(** The function [_completion_with_retry] nested in [acompletion_with_retry],
    before decoration. *)
Definition _completion_with_retry (llm : _BaseVertexMaasModelGarden)
    (kwargs : gmap string pyval) : M Completion :=
  let kwargs := default_stream kwargs in
  let stream := getitem_stream kwargs in
  if truthy stream then
    let event_source :=
      send (async_client llm) (sse_request (_get_url_part llm true) kwargs) in
    pure (Lazy (_aiter_sse event_source))
  else
    let* x := send (async_client llm) (post_request (_get_url_part llm false) kwargs) in
    let* checked := lift (_araise_on_error (response x)) in
    let* record := lift (response_json (response x)) in
    pure (Decoded record).

(** [acompletion_with_retry] *)
Definition acompletion_with_retry (llm : _BaseVertexMaasModelGarden)
    (kwargs : gmap string pyval) : M Completion :=
  let retry_decorator := @_create_retry_decorator Completion llm in
  let kwargs := enriched llm kwargs in
  retry_decorator (_completion_with_retry llm kwargs).

(** The generator [iter_sse] nested in [completion_with_retry]. *)
Definition iter_sse (llm : _BaseVertexMaasModelGarden)
    (kwargs : gmap string pyval) : Gen :=
  fun log =>
    match send (client llm) (sse_request (_get_url_part llm true) kwargs) log with
    | (Raise e, log1) => (stream_failed e, log1)
    | (Ok event_source, log1) =>
      match _raise_on_error (response event_source) with
      | Raise e => (stream_failed e, log1)
      | Ok _ => (sse_loop (events event_source), log1)
      end
    end.

(** [completion_with_retry] *)
Definition completion_with_retry (llm : _BaseVertexMaasModelGarden)
    (kwargs : gmap string pyval) : M Completion :=
  let kwargs := default_stream kwargs in
  let stream := getitem_stream kwargs in
  let kwargs := enriched llm kwargs in
  if truthy stream then
    pure (Lazy (iter_sse llm kwargs))
  else
    let* x := send (client llm) (post_request (_get_url_part llm false) kwargs) in
    let* checked := lift (_raise_on_error (response x)) in
    let* record := lift (response_json (response x)) in
    pure (Decoded record).

(** What the caller of a completion entry point observes when it makes the
    call and, if it is handed a generator, consumes it to its end. *)
Inductive Outcome :=
| Returned (record : pyval)
| Failed (e : exn)
| Streamed (o : StreamOutcome).

Definition consume (call : M Completion) (log : list Request)
  : Outcome * list Request :=
  match call log with
  | (Raise e, log1) => (Failed e, log1)
  | (Ok (Decoded record), log1) => (Returned record, log1)
  | (Ok (Lazy g), log1) => let (o, log2) := g log1 in (Streamed o, log2)
  end.

(** ** Credentials *)

(** A [google.auth] credentials object as [_get_token] uses it: the [token]
    attribute it holds before the call, and what [refresh(request)] does --
    the value it leaves in [token], or the exception it raises.  Such an
    object is truthy; only [None] is not. *)
Record Credentials := {
  token : option string;
  refreshed : result (option string)
}.

(** [_get_token].  [adc] is what [auth.default()] gives in the environment of
    the call: the pair of the default credentials and the project, or the
    exception it raises. *)
Definition _get_token (adc : result (Credentials * option string))
    (credentials : option Credentials) : result string :=
  bind (match credentials with
        | None => bind adc (fun found => Ok (fst found))
        | Some given => Ok given
        end) (fun credentials =>
  bind (refreshed credentials) (fun token =>
  match token with
  | None => Raise (ValueError "Couldn't retrieve a token!")
  | Some text =>
    if String.eqb text EmptyString
    then Raise (ValueError "Couldn't retrieve a token!")
    else Ok text
  end)).

(** ** Notions used in the statements, and concrete instances *)

(** The credentials [_get_token] works with: the ones it is given, or the
    default ones when it is given none. *)
Definition selected (adc : result (Credentials * option string))
    (credentials : option Credentials) (c : Credentials) : Prop :=
  match credentials with
  | Some given => c = given
  | None => exists project, adc = Ok (c, project)
  end.

(** The canonical name stored for a family: the part of the requested name
    before its first '@' for MISTRAL, the requested name for LLAMA. *)
Definition canonical_name (family : VertexMaaSModelFamily) (requested : string) : string :=
  match family with
  | MISTRAL => Str.split_head "@" requested
  | LLAMA => requested
  end.

(** The [stream] value a call works with. *)
Definition stream_of (kwargs : gmap string pyval) : pyval :=
  default (PBool false) (kwargs !! "stream").

(** The payload both entry points hand to the client. *)
Definition payload (llm : _BaseVertexMaasModelGarden) (kwargs : gmap string pyval)
  : gmap string pyval :=
  enriched llm (default_stream kwargs).

(** What a non-streaming attempt makes of the client's answer. *)
Definition settle (check : Response -> result unit) (answer : result Exchange)
  : result Completion :=
  bind answer (fun x =>
  bind (check (response x)) (fun _ =>
  bind (response_json (response x)) (fun record => Ok (Decoded record)))).

(** What a consumed streaming generator makes of the client's answer. *)
Definition drain (check : Response -> result unit) (answer : result Exchange)
  : StreamOutcome :=
  match answer with
  | Raise e => stream_failed e
  | Ok x =>
    match check (response x) with
    | Raise e => stream_failed e
    | Ok _ => sse_loop (events x)
    end
  end.

(** The exceptions [_create_retry_decorator] asks to retry. *)
Definition transport_error (e : exn) : bool :=
  existsb (fun t => t e) [is_RequestError; is_StreamError].

(** The number of attempts the retry policy allows. *)
Definition attempts (llm : _BaseVertexMaasModelGarden) : nat :=
  S (Z.to_nat (max_retries llm - 1)).

(** An outcome that ends the retry loop: a result, or an exception that is
    not retried. *)
Definition final {A} (retryable : exn -> bool) (o : result A) : Prop :=
  match o with
  | Ok _ => True
  | Raise e => retryable e = false
  end.

(** An outcome after which the retry loop makes another attempt, if one is
    left. *)
Definition retried {A} (retryable : exn -> bool) (o : result A) : Prop :=
  match o with
  | Ok _ => False
  | Raise e => retryable e = true
  end.

(** The message of the [HTTPStatusError] raised for [r] with body text
    [text]. *)
Definition error_message_for (r : Response) (text : string) : string :=
  "Error response " +:+ pretty (status_code r)
  +:+ " while fetching " +:+ url r +:+ ": " +:+ text.

(** A client that never gets through, and configurations used as concrete
    instances below. *)
Definition unreachable : Transport :=
  fun _ => Raise (RequestError "connection refused").

Definition unresolved_llm : _BaseVertexMaasModelGarden :=
  {| model_name := "some-model"; full_model_name := "some-model";
     location := "us-central1"; project := "demo"; max_retries := 6;
     client := unreachable; async_client := unreachable;
     append_tools_to_system_message := false; model_family := None |}.

(** A parameter dict as a caller may hold it. *)
Definition caller_dict : gmap string pyval :=
  {[ "safe_prompt" := PBool true; "model" := PStr "other"; "temperature" := PInt 1 ]}.

(** Sample traffic. *)
Definition sample_events : list sse_event :=
  [ {| data := "17"; event_json := Some (PInt 17) |};
    {| data := "[1]"; event_json := Some (PList [PInt 1]) |};
    {| data := "[DONE]"; event_json := None |};
    {| data := "18"; event_json := Some (PInt 18) |} ].

Definition sample_exchange : Exchange :=
  {| response := {| status_code := 200; url := "https://host/openapi/chat/completions";
                    content := "[1]"; json := Some (PList [PInt 1]) |};
     events := sample_events |}.

(** A client that always gets the sample answer, and one whose first request
    is reset by the peer and whose later requests get the sample answer. *)
Definition steady : Transport := fun _ => Ok sample_exchange.

Definition flaky : Transport :=
  fun n =>
    match n with
    | O => Raise (RequestError "connection reset")
    | S _ => Ok sample_exchange
    end.

(** A client whose first [k] requests are reset by the peer. *)
Definition recovering (k : nat) : Transport :=
  fun n =>
    if (n <? k)%nat then Raise (RequestError "connection reset")
    else Ok sample_exchange.

Definition llama_llm (c : Transport) : _BaseVertexMaasModelGarden :=
  {| model_name := "meta/llama3-405b-instruct-maas";
     full_model_name := "meta/llama3-405b-instruct-maas";
     location := "us-central1"; project := "demo"; max_retries := 3;
     client := c; async_client := c;
     append_tools_to_system_message := false; model_family := Some LLAMA |}.

(** An error page in Latin-1: the bytes of "caf", then 0xE9. *)
Definition latin1_error : Response :=
  {| status_code := 500; url := "https://host/openapi/chat/completions";
     content := "caf" +:+ String (ascii_of_N 233) EmptyString;
     json := None |}.

Definition utf8_error : Response :=
  {| status_code := 500; url := "https://host/openapi/chat/completions";
     content := "quota exceeded"; json := None |}.

(** Credentials whose refresh obtains a token, credentials whose refresh
    leaves them without a token, and an environment without default
    credentials. *)
Definition service_account : Credentials :=
  {| token := None; refreshed := Ok (Some "ya29.token") |}.

Definition revoked_account : Credentials :=
  {| token := Some "ya29.stale"; refreshed := Ok None |}.

Definition no_default : result (Credentials * option string) :=
  Raise (ValueError "default credentials were not found").

(** Events without a sentinel, and events with a payload that is no JSON. *)
Definition unterminated_events : list sse_event :=
  [ {| data := "17"; event_json := Some (PInt 17) |};
    {| data := "[1]"; event_json := Some (PList [PInt 1]) |} ].

Definition garbled_events : list sse_event :=
  [ {| data := "17"; event_json := Some (PInt 17) |};
    {| data := "[DONE"; event_json := None |};
    {| data := "18"; event_json := Some (PInt 18) |} ].

Definition answering (evs : list sse_event) : Transport :=
  fun _ => Ok {| response := response sample_exchange; events := evs |}.

(** An answer with status 200 whose body is no JSON. *)
Definition html_exchange : Exchange :=
  {| response := {| status_code := 200; url := "https://host/openapi/chat/completions";
                    content := "<html>"; json := None |};
     events := [] |}.

(** A model that allows a single attempt. *)
Definition single_shot_llm (c : Transport) : _BaseVertexMaasModelGarden :=
  {| model_name := "meta/llama3-405b-instruct-maas";
     full_model_name := "meta/llama3-405b-instruct-maas";
     location := "us-central1"; project := "demo"; max_retries := 1;
     client := c; async_client := c;
     append_tools_to_system_message := false; model_family := Some LLAMA |}.

(** * Properties *)

(** ** String primitives *)

Section StrFacts.

Lemma split_head_no_sep sep s :
  Str.occurs sep s = false -> Str.split_head sep s = s.
Proof.
  induction s as [|c r IH]; simpl; [done|].
  destruct (Ascii.eqb c sep); simpl; [done|].
  intros H. by rewrite IH.
Qed.

Lemma split_head_app sep pre post :
  Str.occurs sep pre = false ->
  Str.split_head sep (pre +:+ String sep post) = pre.
Proof.
  induction pre as [|c r IH]; simpl.
  - by rewrite Ascii.eqb_refl.
  - destruct (Ascii.eqb c sep); simpl; [done|].
    intros H. by rewrite IH.
Qed.

Lemma split_head_free sep s : Str.occurs sep (Str.split_head sep s) = false.
Proof.
  induction s as [|c r IH]; simpl; [done|].
  destruct (Ascii.eqb c sep) eqn:E; simpl; [done|].
  by rewrite E.
Qed.

Lemma lower_idempotent_ascii c : Str.lower_ascii (Str.lower_ascii c) = Str.lower_ascii c.
Proof.
  destruct c as [[] [] [] [] [] [] [] []]; reflexivity.
Qed.

Lemma lower_idempotent s : Str.lower (Str.lower s) = Str.lower s.
Proof.
  induction s as [|c r IH]; simpl; [done|].
  by rewrite lower_idempotent_ascii, IH.
Qed.

End StrFacts.

Example lower_upper_case_name :
  Str.lower "MISTRAL-NEMO@2407" = "mistral-nemo@2407".
Proof. reflexivity. Qed.

Example split_head_versioned :
  Str.split_head "@" "mistral-large@2407" = "mistral-large".
Proof. reflexivity. Qed.

(** ** Model family resolver *)

(** The hook [_missing_] taken alone is the allow-list lookup: exact
    membership of the lower-cased identifier. *)
Lemma _missing__allow_list (s : string) :
  (Str.lower s = "meta/llama3-405b-instruct-maas" -> _missing_ (PStr s) = Ok LLAMA)
  /\ (Str.lower s = "mistral-nemo@2407" \/ Str.lower s = "mistral-large@2407" ->
      _missing_ (PStr s) = Ok MISTRAL)
  /\ (Str.lower s <> "meta/llama3-405b-instruct-maas" ->
      Str.lower s <> "mistral-nemo@2407" ->
      Str.lower s <> "mistral-large@2407" ->
      _missing_ (PStr s)
      = Raise (ValueError ("Model " +:+ Str.lower s +:+ " is not supported yet!"))).
Proof.
  unfold _missing_, llama_models, mistral_models.
  repeat split.
  - intros ->. reflexivity.
  - intros [-> | ->]; reflexivity.
  - intros H1 H2 H3.
    rewrite bool_decide_eq_false_2 by (rewrite elem_of_singleton; exact H1).
    rewrite bool_decide_eq_false_2
      by (rewrite elem_of_union, !elem_of_singleton; tauto).
    reflexivity.
Qed.

(** Calling the class consults [_missing_] only for a string that is no
    member value. *)
Lemma VertexMaaSModelFamily_call_missing (s : string) :
  s <> "1" -> s <> "2" ->
  VertexMaaSModelFamily_call (PStr s) = _missing_ (PStr s).
Proof.
  intros H1 H2. unfold VertexMaaSModelFamily_call, value2member. simpl.
  destruct (String.eqb_spec s "1"); [done|].
  destruct (String.eqb_spec s "2"); [done|].
  reflexivity.
Qed.

Lemma VertexMaaSModelFamily_call_case_insensitive (s : string) :
  s <> "1" -> s <> "2" ->
  VertexMaaSModelFamily_call (PStr s) = VertexMaaSModelFamily_call (PStr (Str.lower s)).
Proof.
  intros H1 H2.
  rewrite VertexMaaSModelFamily_call_missing by done.
  assert (Hl1 : Str.lower s <> "1").
  { destruct s as [|c [|d r]]; simpl; try discriminate.
    intros [= E]. apply H1. f_equal.
    revert E. destruct c as [[] [] [] [] [] [] [] []]; vm_compute; congruence. }
  assert (Hl2 : Str.lower s <> "2").
  { destruct s as [|c [|d r]]; simpl; try discriminate.
    intros [= E]. apply H2. f_equal.
    revert E. destruct c as [[] [] [] [] [] [] [] []]; vm_compute; congruence. }
  rewrite VertexMaaSModelFamily_call_missing by done.
  unfold _missing_. by rewrite lower_idempotent.
Qed.

(** Which strings the class call resolves, and to what. *)
Lemma VertexMaaSModelFamily_call_resolves (s : string) :
  (VertexMaaSModelFamily_call (PStr s) = Ok LLAMA
   <-> s = "1" \/ Str.lower s = "meta/llama3-405b-instruct-maas")
  /\ (VertexMaaSModelFamily_call (PStr s) = Ok MISTRAL
      <-> s = "2" \/ Str.lower s = "mistral-nemo@2407"
          \/ Str.lower s = "mistral-large@2407").
Proof.
  destruct (decide (s = "1")) as [->|H1].
  { split; split.
    - intros _. by left.
    - intros _. reflexivity.
    - intros H. vm_compute in H. discriminate H.
    - intros [H|[H|H]]; vm_compute in H; discriminate H. }
  destruct (decide (s = "2")) as [->|H2].
  { split; split.
    - intros H. vm_compute in H. discriminate H.
    - intros [H|H]; vm_compute in H; discriminate H.
    - intros _. by left.
    - intros _. reflexivity. }
  rewrite VertexMaaSModelFamily_call_missing by done.
  destruct (_missing__allow_list s) as (Hl & Hm & Hother).
  destruct (decide (Str.lower s = "meta/llama3-405b-instruct-maas")) as [El|Nl].
  { rewrite (Hl El). split; split.
    - intros _. by right.
    - done.
    - discriminate.
    - rewrite El. intros [H|[H|H]]; [done|discriminate H|discriminate H]. }
  destruct (decide (Str.lower s = "mistral-nemo@2407")) as [En|Nn].
  { rewrite (Hm (or_introl En)). split; split.
    - discriminate.
    - intros [H|H]; done.
    - intros _. right. by left.
    - done. }
  destruct (decide (Str.lower s = "mistral-large@2407")) as [Eg|Ng].
  { rewrite (Hm (or_intror Eg)). split; split.
    - discriminate.
    - intros [H|H]; done.
    - intros _. right. by right.
    - done. }
  rewrite (Hother Nl Nn Ng). split; split.
  - discriminate.
  - intros [H|H]; done.
  - discriminate.
  - intros [H|[H|H]]; done.
Qed.

Example resolve_upper_case :
  VertexMaaSModelFamily_call (PStr "MISTRAL-NEMO@2407") = Ok MISTRAL
  /\ VertexMaaSModelFamily_call (PStr "mistral-nemo@2407") = Ok MISTRAL.
Proof. split; reflexivity. Qed.

Example resolve_prefix_is_no_match :
  VertexMaaSModelFamily_call (PStr "mistral-large")
  = Raise (ValueError "Model mistral-large is not supported yet!").
Proof. reflexivity. Qed.

(** C1: the resolver is to accept exactly the identifiers whose lower-cased
    form is in an allow-list and to fail on every other string.  Evaluated
    on the strings "1" and "2", which are in no allow-list: the class call
    returns LLAMA and MISTRAL, because they are the values of the two
    members, although [_missing_] rejects both. *)
Theorem family_call_member_values :
  VertexMaaSModelFamily_call (PStr "1") = Ok LLAMA
  /\ VertexMaaSModelFamily_call (PStr "2") = Ok MISTRAL
  /\ (Str.lower "1" ∉ llama_models ∪ mistral_models)
  /\ (Str.lower "2" ∉ llama_models ∪ mistral_models)
  /\ _missing_ (PStr "1") = Raise (ValueError "Model 1 is not supported yet!")
  /\ _missing_ (PStr "2") = Raise (ValueError "Model 2 is not supported yet!").
Proof.
  unfold llama_models, mistral_models.
  repeat split; try reflexivity;
    rewrite !elem_of_union, !elem_of_singleton; intros [H|[H|H]]; discriminate H.
Qed.

(** ** Construction-time validation *)

(** C6: the validator stores the resolved family; for MISTRAL it stores the
    requested name cut before its first '@' as model name and the requested
    name itself as full model name; for LLAMA it keeps the model name and
    leaves the full model name as it was; no other field changes. *)
Theorem validate_stores_resolution
    (values : gmap string pyval) (requested : string)
    (family : VertexMaaSModelFamily) :
  values !! "model_name" = Some (PStr requested) ->
  VertexMaaSModelFamily_call (PStr requested) = Ok family ->
  exists stored,
    validate_environment_model_garden values = Ok stored
    /\ stored !! "model_family" = Some (PFamily family)
    /\ stored !! "model_name" = Some (PStr (canonical_name family requested))
    /\ stored !! "full_model_name"
       = match family with
         | MISTRAL => Some (PStr requested)
         | LLAMA => values !! "full_model_name"
         end
    /\ (forall key, key <> "model_family" -> key <> "model_name" ->
                    key <> "full_model_name" -> stored !! key = values !! key).
Proof.
  intros Hname Hcall. unfold validate_environment_model_garden.
  rewrite Hname, Hcall. simpl.
  destruct family; simpl; (eexists; split; [reflexivity|]).
  - repeat split; [by simplify_map_eq ..|].
    intros key H1 H2 H3. by rewrite lookup_insert_ne.
  - repeat split; [by simplify_map_eq ..|].
    intros key H1 H2 H3. by rewrite !lookup_insert_ne.
Qed.

Lemma validate_stores_resolution_witness :
  exists stored,
    validate_environment_model_garden {[ "model_name" := PStr "mistral-large@2407" ]}
    = Ok stored
    /\ stored !! "model_family" = Some (PFamily MISTRAL)
    /\ stored !! "model_name" = Some (PStr "mistral-large")
    /\ stored !! "full_model_name" = Some (PStr "mistral-large@2407").
Proof.
  destruct (validate_stores_resolution
              {[ "model_name" := PStr "mistral-large@2407" ]}
              "mistral-large@2407" MISTRAL)
    as (stored & H1 & H2 & H3 & H4 & _).
  - reflexivity.
  - reflexivity.
  - exists stored. repeat split; assumption.
Defined.

(** Resolution failures reach the caller of the constructor unchanged. *)
Lemma validate_unsupported (values : gmap string pyval) (requested : string) e :
  values !! "model_name" = Some (PStr requested) ->
  VertexMaaSModelFamily_call (PStr requested) = Raise e ->
  validate_environment_model_garden values = Raise e.
Proof.
  intros Hname Hcall. unfold validate_environment_model_garden.
  by rewrite Hname, Hcall.
Qed.

Example validate_llama :
  validate_environment_model_garden
    {[ "model_name" := PStr "meta/llama3-405b-instruct-maas" ]}
  = Ok (<["model_family" := PFamily LLAMA]>
          {[ "model_name" := PStr "meta/llama3-405b-instruct-maas" ]}).
Proof. reflexivity. Qed.

(** ** URL construction *)

(** C7: the base URL is built from region, API version and project, the
    version being v1beta1 for LLAMA and v1 otherwise; the URL path is the
    Mistral rawPredict / streamRawPredict path on the full model name for
    MISTRAL and the OpenAI-compatible path for LLAMA, whatever the stream
    flag. *)
Theorem url_construction (llm : _BaseVertexMaasModelGarden) (stream : bool) :
  get_url llm
  = "https://" +:+ location llm +:+ "-aiplatform.googleapis.com/"
    +:+ match model_family llm with
        | Some LLAMA => "v1beta1"
        | _ => "v1"
        end
    +:+ "/projects/" +:+ project llm +:+ "/locations/" +:+ location llm
  /\ _get_url_part llm stream
     = match model_family llm, stream with
       | Some MISTRAL, true =>
         "publishers/mistralai/models/" +:+ full_model_name llm +:+ ":streamRawPredict"
       | Some MISTRAL, false =>
         "publishers/mistralai/models/" +:+ full_model_name llm +:+ ":rawPredict"
       | Some LLAMA, _ => "openapi/chat/completions"
       | None, _ => "openapi/chat/completions"
       end.
Proof.
  unfold get_url, _get_url_part.
  destruct (model_family llm) as [[]|], stream; split; reflexivity.
Qed.

Example mistral_url_parts :
  let llm :=
    {| model_name := "mistral-large"; full_model_name := "mistral-large@2407";
       location := "europe-west4"; project := "demo"; max_retries := 6;
       client := unreachable; async_client := unreachable;
       append_tools_to_system_message := false; model_family := Some MISTRAL |} in
  _get_url_part llm false = "publishers/mistralai/models/mistral-large@2407:rawPredict"
  /\ _get_url_part llm true
     = "publishers/mistralai/models/mistral-large@2407:streamRawPredict"
  /\ get_url llm
     = "https://europe-west4-aiplatform.googleapis.com/v1/projects/demo/locations/europe-west4".
Proof. repeat split; reflexivity. Qed.

Example llama_url_parts :
  _get_url_part (llama_llm steady) false = "openapi/chat/completions"
  /\ _get_url_part (llama_llm steady) true = "openapi/chat/completions"
  /\ get_url (llama_llm steady)
     = "https://us-central1-aiplatform.googleapis.com/v1beta1/projects/demo/locations/us-central1".
Proof. repeat split; reflexivity. Qed.

(** C10: every family value other than MISTRAL, the unset [None] included,
    gets the OpenAI-compatible path for both stream flags, and every family
    value other than LLAMA gets API version v1; conversely another path
    means MISTRAL and another base URL means LLAMA. *)
Theorem url_default_branches (llm : _BaseVertexMaasModelGarden) (stream : bool) :
  (model_family llm <> Some MISTRAL ->
   _get_url_part llm stream = "openapi/chat/completions")
  /\ (model_family llm <> Some LLAMA ->
      get_url llm
      = "https://" +:+ location llm +:+ "-aiplatform.googleapis.com/v1/projects/"
        +:+ project llm +:+ "/locations/" +:+ location llm)
  /\ (_get_url_part llm stream <> "openapi/chat/completions" ->
      model_family llm = Some MISTRAL)
  /\ (get_url llm
      <> "https://" +:+ location llm +:+ "-aiplatform.googleapis.com/v1/projects/"
         +:+ project llm +:+ "/locations/" +:+ location llm ->
      model_family llm = Some LLAMA).
Proof.
  unfold get_url, _get_url_part.
  destruct (model_family llm) as [[]|]; repeat split; intros H;
    solve [ reflexivity | congruence | exfalso; apply H; reflexivity ].
Qed.

Lemma url_default_branches_witness :
  _get_url_part unresolved_llm true = "openapi/chat/completions"
  /\ get_url unresolved_llm
     = "https://us-central1-aiplatform.googleapis.com/v1/projects/demo/locations/us-central1".
Proof.
  destruct (url_default_branches unresolved_llm true) as (H1 & H2 & _).
  split.
  - apply H1. discriminate.
  - apply H2. discriminate.
Defined.

(** ** Parameter normalisation *)

Lemma enriched_lookup (self : _BaseVertexMaasModelGarden)
    (params : gmap string pyval) (key : string) :
  enriched self params !! key
  = if decide (key = "model") then Some (PStr (model_name self))
    else if decide (key = "safe_prompt") then None
    else params !! key.
Proof.
  unfold enriched.
  destruct (decide (key = "model")) as [->|Hm].
  - apply lookup_insert_eq.
  - rewrite lookup_insert_ne by done.
    destruct (decide (key = "safe_prompt")) as [->|Hs].
    + apply lookup_delete_eq.
    + by rewrite lookup_delete_ne.
Qed.

(** Setting the default of [stream] and normalising commute: the two entry
    points, which do these steps in opposite orders, build the same dict. *)
Lemma enriched_default_stream (self : _BaseVertexMaasModelGarden)
    (params : gmap string pyval) :
  default_stream (enriched self params) = enriched self (default_stream params).
Proof.
  unfold default_stream.
  rewrite enriched_lookup. simpl.
  destruct (params !! "stream") eqn:E; [done|].
  apply map_eq. intros key.
  rewrite enriched_lookup.
  destruct (decide (key = "stream")) as [->|Hk].
  - simpl. by rewrite !lookup_insert_eq.
  - rewrite lookup_insert_ne by done.
    rewrite enriched_lookup.
    by rewrite lookup_insert_ne.
Qed.

Lemma getitem_stream_enriched (self : _BaseVertexMaasModelGarden)
    (params : gmap string pyval) :
  getitem_stream (enriched self params) = getitem_stream params.
Proof. unfold getitem_stream. by rewrite enriched_lookup. Qed.

Lemma getitem_default_stream (params : gmap string pyval) :
  getitem_stream (default_stream params)
  = default (PBool false) (params !! "stream").
Proof.
  unfold getitem_stream, default_stream.
  destruct (params !! "stream") eqn:E; simpl.
  - by rewrite E.
  - by rewrite lookup_insert_eq.
Qed.

Lemma default_stream_lookup (params : gmap string pyval) (key : string) :
  default_stream params !! key
  = if decide (key = "stream")
    then Some (default (PBool false) (params !! "stream"))
    else params !! key.
Proof.
  unfold default_stream.
  destruct (decide (key = "stream")) as [->|Hk].
  - destruct (params !! "stream") eqn:E; simpl; [done|apply lookup_insert_eq].
  - destruct (params !! "stream"); [done|]. by rewrite lookup_insert_ne.
Qed.

Module HeapFacts.
Import Heap.

Lemma _enrich_params_once (self : _BaseVertexMaasModelGarden) (params : loc)
    (d : gmap string pyval) (h : heap) :
  h !! params = Some d ->
  exists q h1,
    _enrich_params self params h = Some (q, h1)
    /\ q <> params
    /\ h !! q = None
    /\ h1 !! q = Some (enriched self d)
    /\ (forall l, l <> q -> h1 !! l = h !! l).
Proof.
  intros Hd. unfold _enrich_params, deepcopy. rewrite Hd.
  set (q := fresh (dom h)).
  assert (Hq : h !! q = None).
  { apply not_elem_of_dom. apply is_fresh. }
  exists q. eexists. split; [reflexivity|].
  repeat split.
  - intros ->. congruence.
  - exact Hq.
  - unfold setitem, pop. by rewrite !lookup_alter_eq, lookup_insert_eq.
  - intros l Hl. unfold setitem, pop.
    by rewrite !lookup_alter_ne, lookup_insert_ne.
Qed.

(** C9: whatever the number of calls made with the same parameter object,
    the object keeps its identity and its content, every payload built is a
    new object distinct from it, and no object that existed before is
    changed. *)
Theorem enrich_params_leaves_caller_dict (self : _BaseVertexMaasModelGarden)
    (params : loc) (d : gmap string pyval) (n : nat) (h : heap) :
  h !! params = Some d ->
  exists qs h1,
    enrich_calls self params n h = Some (qs, h1)
    /\ length qs = n
    /\ h1 !! params = Some d
    /\ Forall (fun q => q <> params /\ h !! q = None
                        /\ h1 !! q = Some (enriched self d)) qs
    /\ (forall l c, h !! l = Some c -> h1 !! l = Some c).
Proof.
  revert h. induction n as [|n IH]; intros h Hd; simpl.
  - exists [], h. repeat split; auto.
  - destruct (_enrich_params_once self params d h Hd)
      as (q & h1 & Hcall & Hne & Hfresh & Hq & Hframe).
    rewrite Hcall.
    assert (Hd1 : h1 !! params = Some d).
    { rewrite Hframe; [exact Hd | congruence]. }
    destruct (IH h1 Hd1) as (qs & h2 & Hcalls & Hlen & Hd2 & Hall & Hframe2).
    rewrite Hcalls.
    exists (q :: qs), h2. split; [reflexivity|].
    split; [simpl; by rewrite Hlen|].
    split; [exact Hd2|].
    split.
    + constructor.
      * repeat split; auto.
      * eapply Forall_impl; [exact Hall|].
        intros q' (H1 & H2 & H3). repeat split; auto.
        destruct (decide (q' = q)) as [->|Hqq]; [exact Hfresh|].
        rewrite <- Hframe by done. exact H2.
    + intros l c Hl. apply Hframe2.
      rewrite Hframe; [exact Hl|]. intros ->. congruence.
Qed.

Lemma enrich_params_leaves_caller_dict_witness :
  exists qs h1,
    enrich_calls unresolved_llm 1%positive 3 {[ 1%positive := caller_dict ]}
    = Some (qs, h1)
    /\ length qs = 3%nat
    /\ h1 !! 1%positive = Some caller_dict.
Proof.
  destruct (enrich_params_leaves_caller_dict unresolved_llm 1%positive
              caller_dict 3 {[ 1%positive := caller_dict ]})
    as (qs & h1 & H1 & H2 & H3 & _).
  - reflexivity.
  - exists qs, h1. repeat split; assumption.
Defined.

End HeapFacts.

(** ** Dispatcher: single attempts *)

Section Attempts.

Variable llm : _BaseVertexMaasModelGarden.
Variable kwargs : gmap string pyval.

Lemma completion_with_retry_plain log :
  truthy (stream_of kwargs) = false ->
  completion_with_retry llm kwargs log
  = (settle _raise_on_error (client llm (length log)),
     log ++ [post_request (_get_url_part llm false) (payload llm kwargs)]).
Proof.
  intros Hs. unfold completion_with_retry.
  rewrite getitem_default_stream. fold (stream_of kwargs). rewrite Hs.
  unfold and_then, send, lift, pure, settle, payload. simpl.
  destruct (client llm (length log)) as [x|e]; simpl; [|done].
  destruct (_raise_on_error (response x)); simpl; [|done].
  destruct (response_json (response x)); done.
Qed.

Lemma completion_with_retry_stream log :
  truthy (stream_of kwargs) = true ->
  completion_with_retry llm kwargs log
  = (Ok (Lazy (iter_sse llm (payload llm kwargs))), log).
Proof.
  intros Hs. unfold completion_with_retry.
  rewrite getitem_default_stream. fold (stream_of kwargs). by rewrite Hs.
Qed.

Lemma iter_sse_run payload log :
  iter_sse llm payload log
  = (drain _raise_on_error (client llm (length log)),
     log ++ [sse_request (_get_url_part llm true) payload]).
Proof.
  unfold iter_sse, send, drain.
  destruct (client llm (length log)) as [x|e]; [|done].
  destruct (_raise_on_error (response x)); done.
Qed.

Lemma _aiter_sse_run req log :
  _aiter_sse (send (async_client llm) req) log
  = (drain _araise_on_error (async_client llm (length log)), log ++ [req]).
Proof.
  unfold _aiter_sse, send, drain.
  destruct (async_client llm (length log)) as [x|e]; [|done].
  destruct (_araise_on_error (response x)); done.
Qed.

Lemma _completion_with_retry_plain log :
  truthy (stream_of kwargs) = false ->
  _completion_with_retry llm (enriched llm kwargs) log
  = (settle _araise_on_error (async_client llm (length log)),
     log ++ [post_request (_get_url_part llm false) (payload llm kwargs)]).
Proof.
  intros Hs. unfold _completion_with_retry.
  rewrite getitem_default_stream, enriched_lookup. simpl.
  fold (stream_of kwargs). rewrite Hs.
  rewrite enriched_default_stream.
  unfold and_then, send, lift, pure, settle, payload. simpl.
  destruct (async_client llm (length log)) as [x|e]; simpl; [|done].
  destruct (_araise_on_error (response x)); simpl; [|done].
  destruct (response_json (response x)); done.
Qed.

Lemma _completion_with_retry_stream log :
  truthy (stream_of kwargs) = true ->
  _completion_with_retry llm (enriched llm kwargs) log
  = (Ok (Lazy (_aiter_sse
                 (send (async_client llm)
                       (sse_request (_get_url_part llm true) (payload llm kwargs))))),
     log).
Proof.
  intros Hs. unfold _completion_with_retry.
  rewrite getitem_default_stream, enriched_lookup. simpl.
  fold (stream_of kwargs). rewrite Hs.
  by rewrite enriched_default_stream.
Qed.

End Attempts.

(** ** Dispatcher: the retry loop *)

Section Retrying.

Context {A : Type}.
Variable retryable : exn -> bool.

Lemma retrying_ok n (f : M A) log a log1 :
  f log = (Ok a, log1) -> retrying retryable n f log = (Ok a, log1).
Proof. intros H. destruct n; simpl; by rewrite H. Qed.

Lemma retrying_fatal n (f : M A) log e log1 :
  f log = (Raise e, log1) -> retryable e = false ->
  retrying retryable n f log = (Raise e, log1).
Proof. intros H Hr. destruct n; simpl; by rewrite H, Hr. Qed.

Lemma retrying_again n (f : M A) log e log1 :
  f log = (Raise e, log1) -> retryable e = true ->
  retrying retryable (S n) f log = retrying retryable n f log1.
Proof. intros H Hr. simpl. by rewrite H, Hr. Qed.

Lemma retrying_last (f : M A) log e log1 :
  f log = (Raise e, log1) ->
  retrying retryable 0 f log = (Raise e, log1).
Proof. intros H. simpl. rewrite H. by destruct (retryable e). Qed.

(** An attempt that sends one request and whose outcome is the script's
    answer to that request. *)
Variable answer : nat -> result A.
Variable req : Request.
Variable f : M A.
Hypothesis f_run : forall log, f log = (answer (length log), log ++ [req]).

Lemma retrying_until_final n k log :
  (k <= n)%nat ->
  (forall i, (i < k)%nat -> retried retryable (answer (length log + i))) ->
  final retryable (answer (length log + k)) ->
  retrying retryable n f log
  = (answer (length log + k), log ++ replicate (S k) req).
Proof.
  revert n log. induction k as [|k IH]; intros n log Hk Hbefore Hfinal.
  - rewrite Nat.add_0_r in Hfinal. rewrite Nat.add_0_r. simpl.
    destruct (answer (length log)) as [a|e] eqn:E.
    + apply retrying_ok. by rewrite f_run, E.
    + apply retrying_fatal; [by rewrite f_run, E | exact Hfinal].
  - destruct n as [|n]; [lia|].
    specialize (Hbefore 0%nat ltac:(lia)) as H0.
    rewrite Nat.add_0_r in H0.
    destruct (answer (length log)) as [a|e] eqn:E; [done|].
    rewrite (retrying_again n f log e (log ++ [req])); [|by rewrite f_run, E|exact H0].
    rewrite (IH n (log ++ [req])).
    + rewrite length_app. simpl.
      replace (length log + 1 + k)%nat with (length log + S k)%nat by lia.
      f_equal. rewrite <- app_assoc. reflexivity.
    + lia.
    + intros i Hi. rewrite length_app. simpl.
      replace (length log + 1 + i)%nat with (length log + S i)%nat by lia.
      apply Hbefore. lia.
    + rewrite length_app. simpl.
      replace (length log + 1 + k)%nat with (length log + S k)%nat by lia.
      exact Hfinal.
Qed.

Lemma retrying_exhausted n log :
  (forall i, (i <= n)%nat -> retried retryable (answer (length log + i))) ->
  retrying retryable n f log
  = (answer (length log + n), log ++ replicate (S n) req).
Proof.
  revert log. induction n as [|n IH]; intros log Hall.
  - specialize (Hall 0%nat ltac:(lia)) as H0.
    rewrite Nat.add_0_r in *. simpl.
    destruct (answer (length log)) as [a|e] eqn:E; [done|].
    apply retrying_last. by rewrite f_run, E.
  - specialize (Hall 0%nat ltac:(lia)) as H0.
    rewrite Nat.add_0_r in H0.
    destruct (answer (length log)) as [a|e] eqn:E; [done|].
    rewrite (retrying_again n f log e (log ++ [req])); [|by rewrite f_run, E|exact H0].
    rewrite (IH (log ++ [req])).
    + rewrite length_app. simpl.
      replace (length log + 1 + n)%nat with (length log + S n)%nat by lia.
      f_equal. rewrite <- app_assoc. reflexivity.
    + intros i Hi. rewrite length_app. simpl.
      replace (length log + 1 + i)%nat with (length log + S i)%nat by lia.
      apply Hall. lia.
Qed.

End Retrying.

(** ** Dispatcher: what reaches the wire *)

(** The synchronous entry point sends exactly one request, whatever the
    client answers. *)
Lemma completion_with_retry_log llm kwargs log :
  snd (consume (completion_with_retry llm kwargs) log)
  = log ++ [ if truthy (stream_of kwargs)
             then sse_request (_get_url_part llm true) (payload llm kwargs)
             else post_request (_get_url_part llm false) (payload llm kwargs) ].
Proof.
  unfold consume.
  destruct (truthy (stream_of kwargs)) eqn:Hs.
  - rewrite completion_with_retry_stream by done.
    by rewrite iter_sse_run.
  - rewrite completion_with_retry_plain by done.
    unfold settle.
    destruct (client llm (length log)) as [x|e]; simpl; [|done].
    destruct (_raise_on_error (response x)); simpl; [|done].
    destruct (response_json (response x)); done.
Qed.

(** C8: the one request the synchronous entry point sends carries a payload
    without "safe_prompt", with "model" set to the configuration's model
    name, with "stream" set to the caller's value or to False when the
    caller gave none, and goes to the URL path selected by that value; every
    other key is the caller's. *)
Theorem transmitted_payload (llm : _BaseVertexMaasModelGarden)
    (kwargs : gmap string pyval) (log : list Request) :
  exists req,
    snd (consume (completion_with_retry llm kwargs) log) = log ++ [req]
    /\ body req !! "safe_prompt" = None
    /\ body req !! "model" = Some (PStr (model_name llm))
    /\ body req !! "stream" = Some (default (PBool false) (kwargs !! "stream"))
    /\ path req
       = _get_url_part llm (truthy (default (PBool false) (kwargs !! "stream")))
    /\ (forall key, key <> "safe_prompt" -> key <> "model" -> key <> "stream" ->
                    body req !! key = kwargs !! key).
Proof.
  eexists. split; [apply completion_with_retry_log|].
  fold (stream_of kwargs).
  assert (Hbody : forall b : bool,
             body (if b
                   then sse_request (_get_url_part llm true) (payload llm kwargs)
                   else post_request (_get_url_part llm false) (payload llm kwargs))
             = payload llm kwargs) by (by intros []).
  rewrite Hbody. unfold payload.
  repeat split.
  - by rewrite enriched_lookup.
  - by rewrite enriched_lookup.
  - by rewrite enriched_lookup, default_stream_lookup.
  - by destruct (truthy (stream_of kwargs)).
  - intros key H1 H2 H3.
    rewrite enriched_lookup, default_stream_lookup.
    by repeat case_decide.
Qed.

(** ** Dispatcher: server-sent events *)

Lemma sse_loop_until_done (pre post : list sse_event) (done : sse_event)
    (records : list pyval) :
  Forall (fun ev => data ev <> "[DONE]") pre ->
  Forall2 (fun ev record => event_json ev = Some record) pre records ->
  data done = "[DONE]" ->
  sse_loop (pre ++ done :: post)
  = {| yielded := records; events_read := S (length pre);
       decoded := map data pre; raised := None |}.
Proof.
  intros Hpre Hjson Hdone. revert Hpre.
  induction Hjson as [|ev record pre records Hev Hrest IH]; intros Hpre; simpl.
  - by rewrite Hdone.
  - inversion Hpre as [|? ? Hne Hpre']; subst.
    destruct (String.eqb_spec (data ev) "[DONE]"); [done|].
    rewrite Hev, IH by done. reflexivity.
Qed.

Lemma sse_loop_without_done (evs : list sse_event) (records : list pyval) :
  Forall (fun ev => data ev <> "[DONE]") evs ->
  Forall2 (fun ev record => event_json ev = Some record) evs records ->
  sse_loop evs
  = {| yielded := records; events_read := length evs;
       decoded := map data evs; raised := None |}.
Proof.
  intros Hpre Hjson. revert Hpre.
  induction Hjson as [|ev record pre records Hev Hrest IH]; intros Hpre; simpl.
  - reflexivity.
  - inversion Hpre as [|? ? Hne Hpre']; subst.
    destruct (String.eqb_spec (data ev) "[DONE]"); [done|].
    rewrite Hev, IH by done. reflexivity.
Qed.

(** An event whose data is no JSON text ends the iteration with the decoding
    error; nothing after it is read. *)
Lemma sse_loop_undecodable (pre post : list sse_event) (bad : sse_event)
    (records : list pyval) :
  Forall (fun ev => data ev <> "[DONE]") pre ->
  Forall2 (fun ev record => event_json ev = Some record) pre records ->
  data bad <> "[DONE]" -> event_json bad = None ->
  sse_loop (pre ++ bad :: post)
  = {| yielded := records; events_read := S (length pre);
       decoded := map data pre ++ [data bad]; raised := Some JSONDecodeError |}.
Proof.
  intros Hpre Hjson Hbad Hnone. revert Hpre.
  induction Hjson as [|ev record pre records Hev Hrest IH]; intros Hpre; simpl.
  - destruct (String.eqb_spec (data bad) "[DONE]"); [done|]. by rewrite Hnone.
  - inversion Hpre as [|? ? Hne Hpre']; subst.
    destruct (String.eqb_spec (data ev) "[DONE]"); [done|].
    rewrite Hev, IH by done. reflexivity.
Qed.

(** The asynchronous entry point hands a streaming call's generator back
    without sending anything: the decorated function does not raise. *)
Lemma acompletion_with_retry_stream llm kwargs log :
  truthy (stream_of kwargs) = true ->
  acompletion_with_retry llm kwargs log
  = (Ok (Lazy (_aiter_sse
                 (send (async_client llm)
                       (sse_request (_get_url_part llm true) (payload llm kwargs))))),
     log).
Proof.
  intros Hs. unfold acompletion_with_retry, _create_retry_decorator,
    create_base_retry_decorator.
  apply retrying_ok. by apply _completion_with_retry_stream.
Qed.

Lemma consume_completion_stream llm kwargs log :
  truthy (stream_of kwargs) = true ->
  consume (completion_with_retry llm kwargs) log
  = (Streamed (drain _raise_on_error (client llm (length log))),
     log ++ [sse_request (_get_url_part llm true) (payload llm kwargs)]).
Proof.
  intros Hs. unfold consume.
  rewrite completion_with_retry_stream by done.
  by rewrite iter_sse_run.
Qed.

Lemma consume_acompletion_stream llm kwargs log :
  truthy (stream_of kwargs) = true ->
  consume (acompletion_with_retry llm kwargs) log
  = (Streamed (drain _araise_on_error (async_client llm (length log))),
     log ++ [sse_request (_get_url_part llm true) (payload llm kwargs)]).
Proof.
  intros Hs. unfold consume.
  rewrite acompletion_with_retry_stream by done.
  by rewrite _aiter_sse_run.
Qed.

(** C4: on both entry points, consuming the generator of a streaming call
    whose events are [pre], then an event with data "[DONE]", then [post],
    yields the decoded records of [pre] in order and ends normally, having
    read [pre] and the sentinel only and having decoded [pre] only. *)
Theorem stream_stops_at_done (llm : _BaseVertexMaasModelGarden)
    (kwargs : gmap string pyval) (log : list Request) (x : Exchange)
    (pre post : list sse_event) (done : sse_event) (records : list pyval) :
  truthy (default (PBool false) (kwargs !! "stream")) = true ->
  client llm (length log) = Ok x ->
  async_client llm (length log) = Ok x ->
  is_error (status_code (response x)) = false ->
  events x = pre ++ done :: post ->
  Forall (fun ev => data ev <> "[DONE]") pre ->
  Forall2 (fun ev record => event_json ev = Some record) pre records ->
  data done = "[DONE]" ->
  let seen :=
    Streamed {| yielded := records; events_read := S (length pre);
                decoded := map data pre; raised := None |} in
  fst (consume (completion_with_retry llm kwargs) log) = seen
  /\ fst (consume (acompletion_with_retry llm kwargs) log) = seen.
Proof.
  intros Hs Hc Ha Hok Hev Hpre Hjson Hdone seen.
  rewrite consume_completion_stream, consume_acompletion_stream by done.
  rewrite Hc, Ha. unfold drain, _raise_on_error, _araise_on_error.
  rewrite Hok, Hev. simpl.
  rewrite (sse_loop_until_done pre post done records) by done.
  done.
Qed.

Lemma stream_stops_at_done_witness :
  let seen :=
    Streamed {| yielded := [PInt 17; PList [PInt 1]]; events_read := 3;
                decoded := ["17"; "[1]"]; raised := None |} in
  fst (consume (completion_with_retry (llama_llm steady) {[ "stream" := PBool true ]}) [])
  = seen
  /\ fst (consume (acompletion_with_retry (llama_llm steady) {[ "stream" := PBool true ]}) [])
     = seen.
Proof.
  apply (stream_stops_at_done (llama_llm steady) {[ "stream" := PBool true ]} []
           sample_exchange
           [ {| data := "17"; event_json := Some (PInt 17) |};
             {| data := "[1]"; event_json := Some (PList [PInt 1]) |} ]
           [ {| data := "18"; event_json := Some (PInt 18) |} ]
           {| data := "[DONE]"; event_json := None |}
           [PInt 17; PList [PInt 1]]).
  - reflexivity.
  - reflexivity.
  - reflexivity.
  - reflexivity.
  - reflexivity.
  - repeat constructor; discriminate.
  - repeat constructor.
  - reflexivity.
Defined.

(** ** Dispatcher: error responses *)

Lemma _araise_on_error_same (r : Response) : _araise_on_error r = _raise_on_error r.
Proof. reflexivity. Qed.

Lemma _raise_on_error_utf8 (r : Response) :
  is_error (status_code r) = true ->
  Str.utf8_valid (content r) = true ->
  _raise_on_error r = Raise (HTTPStatusError (error_message_for r (content r)) r).
Proof.
  intros He Hu. unfold _raise_on_error, Str.decode_utf8.
  by rewrite He, Hu.
Qed.

Lemma _raise_on_error_pass (r : Response) :
  is_error (status_code r) = false -> _raise_on_error r = Ok tt.
Proof. intros He. unfold _raise_on_error. by rewrite He. Qed.

(** Whatever the status check raises, the retry policy does not retry. *)
Lemma _raise_on_error_final (r : Response) (e : exn) :
  _raise_on_error r = Raise e ->
  is_RequestError e = false /\ is_StreamError e = false.
Proof.
  unfold _raise_on_error, Str.decode_utf8.
  destruct (is_error (status_code r)); [|discriminate].
  destruct (Str.utf8_valid (content r)); simpl; intros [= <-]; done.
Qed.

(** C5: every response with an error status is to raise the HTTP error
    carrying status code, URL and body.  Evaluated on a response with status
    500 whose body is not UTF-8: the strict decoding of the body raises
    [UnicodeDecodeError] before the [HTTPStatusError] is built, and none is
    raised. *)
Lemma error_body_not_utf8 :
  is_error (status_code latin1_error) = true
  /\ _raise_on_error latin1_error = Raise UnicodeDecodeError
  /\ (forall msg r, _raise_on_error latin1_error <> Raise (HTTPStatusError msg r)).
Proof.
  split; [reflexivity|]. split; [reflexivity|].
  intros msg r. vm_compute. discriminate.
Qed.

(** ** Dispatcher: the asynchronous entry point and its retries *)

Section AsyncPlain.

Variable llm : _BaseVertexMaasModelGarden.
Variable kwargs : gmap string pyval.
Hypothesis plain : truthy (stream_of kwargs) = false.

Let request := post_request (_get_url_part llm false) (payload llm kwargs).
Let outcome (i : nat) := settle _araise_on_error (async_client llm i).

Lemma acompletion_with_retry_until_final log k :
  (k < attempts llm)%nat ->
  (forall i, (i < k)%nat -> retried transport_error (outcome (length log + i)%nat)) ->
  final transport_error (outcome (length log + k)%nat) ->
  acompletion_with_retry llm kwargs log
  = (outcome (length log + k)%nat, log ++ replicate (S k) request).
Proof.
  intros Hk Hbefore Hfinal.
  unfold acompletion_with_retry, _create_retry_decorator,
    create_base_retry_decorator.
  apply (retrying_until_final transport_error outcome request).
  - intros log'. by apply _completion_with_retry_plain.
  - unfold attempts in Hk. lia.
  - exact Hbefore.
  - exact Hfinal.
Qed.

Lemma acompletion_with_retry_exhausted log :
  (forall i, (i < attempts llm)%nat ->
             retried transport_error (outcome (length log + i)%nat)) ->
  acompletion_with_retry llm kwargs log
  = (outcome (length log + (attempts llm - 1))%nat,
     log ++ replicate (attempts llm) request).
Proof.
  intros Hall.
  unfold acompletion_with_retry, _create_retry_decorator,
    create_base_retry_decorator, attempts.
  replace (S (Z.to_nat (max_retries llm - 1)) - 1)%nat
    with (Z.to_nat (max_retries llm - 1)) by lia.
  apply (retrying_exhausted transport_error outcome request).
  - intros log'. by apply _completion_with_retry_plain.
  - intros i Hi. apply Hall. unfold attempts. lia.
Qed.

(** A transport-level failure is retried: after [k] such failures, with
    attempt [k+1] still allowed, the answer to that attempt is returned. *)
Lemma acompletion_retries_transport_errors log k x record :
  (k < attempts llm)%nat ->
  (forall i, (i < k)%nat ->
     exists e, async_client llm (length log + i)%nat = Raise e
               /\ transport_error e = true) ->
  async_client llm (length log + k)%nat = Ok x ->
  is_error (status_code (response x)) = false ->
  json (response x) = Some record ->
  consume (acompletion_with_retry llm kwargs) log
  = (Returned record, log ++ replicate (S k) request).
Proof.
  intros Hk Hbefore Hx Hok Hjson.
  assert (Hout : outcome (length log + k)%nat = Ok (Decoded record)).
  { unfold outcome, settle. rewrite Hx. simpl.
    rewrite _araise_on_error_same, _raise_on_error_pass by done. simpl.
    unfold response_json. by rewrite Hjson. }
  unfold consume.
  rewrite (acompletion_with_retry_until_final log k); try done.
  - by rewrite Hout.
  - intros i Hi. destruct (Hbefore i Hi) as (e & He & Hr).
    unfold outcome, settle. by rewrite He.
  - by rewrite Hout.
Qed.

(** When every allowed attempt fails at transport level, the exception of
    the last attempt is raised. *)
Lemma acompletion_gives_up log :
  (forall i, (i < attempts llm)%nat ->
     exists e, async_client llm (length log + i)%nat = Raise e
               /\ transport_error e = true) ->
  exists e,
    async_client llm (length log + (attempts llm - 1))%nat = Raise e
    /\ consume (acompletion_with_retry llm kwargs) log
       = (Failed e, log ++ replicate (attempts llm) request).
Proof.
  intros Hall.
  destruct (Hall (attempts llm - 1)%nat) as (e & He & Hr).
  { unfold attempts. lia. }
  exists e. split; [exact He|].
  unfold consume. rewrite acompletion_with_retry_exhausted.
  - unfold outcome, settle. by rewrite He.
  - intros i Hi. destruct (Hall i Hi) as (e' & He' & Hr').
    unfold outcome, settle. by rewrite He'.
Qed.

(** An error status is not retried: one request, and the exception of the
    status check. *)
Lemma acompletion_error_status_not_retried log x e :
  async_client llm (length log) = Ok x ->
  _araise_on_error (response x) = Raise e ->
  consume (acompletion_with_retry llm kwargs) log
  = (Failed e, log ++ [request]).
Proof.
  intros Hx He.
  assert (Hout : outcome (length log + 0)%nat = Raise e).
  { unfold outcome, settle. rewrite Nat.add_0_r, Hx. simpl. by rewrite He. }
  unfold consume.
  rewrite (acompletion_with_retry_until_final log 0).
  - by rewrite Hout.
  - unfold attempts. lia.
  - intros i Hi. lia.
  - rewrite Hout. simpl. unfold transport_error. simpl.
    rewrite _araise_on_error_same in He.
    destruct (_raise_on_error_final _ _ He) as [-> ->]. done.
Qed.

End AsyncPlain.

(** The synchronous entry point makes a single attempt. *)
Lemma completion_makes_one_attempt llm kwargs log e :
  truthy (stream_of kwargs) = false ->
  client llm (length log) = Raise e ->
  consume (completion_with_retry llm kwargs) log
  = (Failed e,
     log ++ [post_request (_get_url_part llm false) (payload llm kwargs)]).
Proof.
  intros Hs He. unfold consume.
  rewrite completion_with_retry_plain by done.
  unfold settle. by rewrite He.
Qed.

(** The two entry points observe the same thing whenever the first attempt
    of a non-streaming call does not fail at transport level. *)
Lemma entry_points_agree llm kwargs log :
  client llm (length log) = async_client llm (length log) ->
  (truthy (stream_of kwargs) = false ->
   forall e, client llm (length log) = Raise e -> transport_error e = false) ->
  consume (completion_with_retry llm kwargs) log
  = consume (acompletion_with_retry llm kwargs) log.
Proof.
  intros Hsame Hfirst.
  destruct (truthy (stream_of kwargs)) eqn:Hs.
  - rewrite consume_completion_stream, consume_acompletion_stream by done.
    by rewrite Hsame.
  - unfold consume.
    rewrite completion_with_retry_plain by done.
    rewrite (acompletion_with_retry_until_final llm kwargs Hs log 0).
    + rewrite Nat.add_0_r, Hsame. reflexivity.
    + unfold attempts. lia.
    + intros i Hi. lia.
    + rewrite Nat.add_0_r, <- Hsame. unfold settle.
      destruct (client llm (length log)) as [x|e] eqn:E; simpl.
      * destruct (_araise_on_error (response x)) as [[]|e] eqn:Ee; simpl.
        -- unfold response_json. by destruct (json (response x)).
        -- rewrite _araise_on_error_same in Ee. unfold transport_error. simpl.
           by destruct (_raise_on_error_final _ _ Ee) as [-> ->].
      * by apply Hfirst.
Qed.

(** The retry policy at work on the asynchronous non-streaming path, three
    attempts allowed. *)
Example async_success_on_last_attempt :
  let run := consume (acompletion_with_retry (llama_llm (recovering 2)) ∅) [] in
  fst run = Returned (PList [PInt 1]) /\ length (snd run) = 3%nat.
Proof. split; reflexivity. Qed.

Example async_gives_up_after_max_retries :
  let run := consume (acompletion_with_retry (llama_llm (recovering 3)) ∅) [] in
  fst run = Failed (RequestError "connection reset") /\ length (snd run) = 3%nat.
Proof. split; reflexivity. Qed.

Example async_error_status_single_request :
  let run :=
    consume (acompletion_with_retry
               (llama_llm (fun _ => Ok {| response := utf8_error; events := [] |})) ∅) [] in
  fst run
  = Failed (HTTPStatusError
              "Error response 500 while fetching https://host/openapi/chat/completions: quota exceeded"
              utf8_error)
  /\ length (snd run) = 1%nat.
Proof. split; reflexivity. Qed.

(** A response with an error status whose body is UTF-8 text
    makes the status check raise [HTTPStatusError] with the response (status
    code and URL) and a message made of the status code, the URL and the
    body text; a non-streaming call raises it, and a streaming call raises
    it when the generator is first advanced, before any event is read. *)
Theorem error_status_raises (r : Response) (llm : _BaseVertexMaasModelGarden)
    (kwargs : gmap string pyval) (log : list Request) (x : Exchange) :
  is_error (status_code r) = true ->
  Str.utf8_valid (content r) = true ->
  response x = r ->
  client llm (length log) = Ok x ->
  async_client llm (length log) = Ok x ->
  let err :=
    HTTPStatusError ("Error response " +:+ pretty (status_code r)
                     +:+ " while fetching " +:+ url r +:+ ": " +:+ content r) r in
  let seen :=
    if truthy (default (PBool false) (kwargs !! "stream"))
    then Streamed {| yielded := []; events_read := 0; decoded := [];
                     raised := Some err |}
    else Failed err in
  _raise_on_error r = Raise err
  /\ _araise_on_error r = Raise err
  /\ fst (consume (completion_with_retry llm kwargs) log) = seen
  /\ fst (consume (acompletion_with_retry llm kwargs) log) = seen.
Proof.
  intros He Hu Hx Hc Ha err seen.
  assert (Hr : _raise_on_error r = Raise err) by (by apply _raise_on_error_utf8).
  assert (Hr' : _araise_on_error r = Raise err) by exact Hr.
  split; [exact Hr|]. split; [exact Hr'|].
  subst seen. fold (stream_of kwargs).
  destruct (truthy (stream_of kwargs)) eqn:Hs.
  - rewrite consume_completion_stream, consume_acompletion_stream by done.
    rewrite Hc, Ha. unfold drain. rewrite Hx, Hr, Hr'. done.
  - split.
    + unfold consume. rewrite completion_with_retry_plain by done.
      unfold settle. rewrite Hc. simpl. by rewrite Hx, Hr.
    + rewrite (acompletion_error_status_not_retried llm kwargs Hs log x err); try done.
      by rewrite Hx.
Qed.

Lemma error_status_raises_witness :
  let err :=
    HTTPStatusError
      "Error response 500 while fetching https://host/openapi/chat/completions: quota exceeded"
      utf8_error in
  _raise_on_error utf8_error = Raise err
  /\ _araise_on_error utf8_error = Raise err
  /\ fst (consume (completion_with_retry
                     (llama_llm (fun _ => Ok {| response := utf8_error; events := [] |}))
                     {[ "stream" := PBool true ]}) [])
     = Streamed {| yielded := []; events_read := 0; decoded := []; raised := Some err |}
  /\ fst (consume (acompletion_with_retry
                     (llama_llm (fun _ => Ok {| response := utf8_error; events := [] |}))
                     {[ "stream" := PBool true ]}) [])
     = Streamed {| yielded := []; events_read := 0; decoded := []; raised := Some err |}.
Proof.
  exact (error_status_raises utf8_error
           (llama_llm (fun _ => Ok {| response := utf8_error; events := [] |}))
           {[ "stream" := PBool true ]} []
           {| response := utf8_error; events := [] |}
           eq_refl eq_refl eq_refl eq_refl eq_refl).
Defined.

(** ** Dispatcher: where the retry policy does not reach *)

(** C2: the two entry points are to treat a call alike, retries included.
    Evaluated on a non-streaming call with three attempts allowed, whose
    first request is reset and whose second request would be answered: the
    asynchronous entry point sends two requests and returns the record, the
    synchronous one sends one request and raises the transport error. *)
Theorem sync_call_is_not_retried :
  max_retries (llama_llm flaky) = 3
  /\ consume (acompletion_with_retry (llama_llm flaky) ∅) []
     = (Returned (PList [PInt 1]),
        [ post_request "openapi/chat/completions" (payload (llama_llm flaky) ∅);
          post_request "openapi/chat/completions" (payload (llama_llm flaky) ∅) ])
  /\ consume (completion_with_retry (llama_llm flaky) ∅) []
     = (Failed (RequestError "connection reset"),
        [ post_request "openapi/chat/completions" (payload (llama_llm flaky) ∅) ]).
Proof.
  assert (plain : truthy (stream_of (∅ : gmap string pyval)) = false)
    by reflexivity.
  split; [reflexivity|]. split.
  - rewrite (acompletion_retries_transport_errors (llama_llm flaky) ∅ plain
               [] 1%nat sample_exchange (PList [PInt 1])); try reflexivity.
    + unfold attempts. simpl. lia.
    + intros i Hi. assert (i = 0%nat) as -> by lia.
      eexists. split; reflexivity.
  - by rewrite (completion_makes_one_attempt _ _ _ (RequestError "connection reset")).
Qed.

(** C3: a transport-level failure is to be re-attempted up to the configured
    number of attempts.  Evaluated on streaming calls with three attempts
    allowed, whose first connection is reset and whose second would be
    answered: on both entry points the generator raises the transport error
    when it is consumed, after a single request. *)
Theorem stream_connection_is_not_retried :
  max_retries (llama_llm flaky) = 3
  /\ flaky 1%nat = Ok sample_exchange
  /\ consume (acompletion_with_retry (llama_llm flaky) {[ "stream" := PBool true ]}) []
     = (Streamed {| yielded := []; events_read := 0; decoded := [];
                    raised := Some (RequestError "connection reset") |},
        [ sse_request "openapi/chat/completions"
            (payload (llama_llm flaky) {[ "stream" := PBool true ]}) ])
  /\ consume (completion_with_retry (llama_llm flaky) {[ "stream" := PBool true ]}) []
     = (Streamed {| yielded := []; events_read := 0; decoded := [];
                    raised := Some (RequestError "connection reset") |},
        [ sse_request "openapi/chat/completions"
            (payload (llama_llm flaky) {[ "stream" := PBool true ]}) ]).
Proof.
  split; [reflexivity|]. split; [reflexivity|]. split.
  - by rewrite consume_acompletion_stream.
  - by rewrite consume_completion_stream.
Qed.

(** * Further properties *)

(** ** Resolver and validator *)

Lemma lower_ascii_at (c : ascii) :
  Ascii.eqb (Str.lower_ascii c) "@" = Ascii.eqb c "@".
Proof. destruct c as [[] [] [] [] [] [] [] []]; reflexivity. Qed.

Lemma lower_split_head_at (s : string) :
  Str.lower (Str.split_head "@" s) = Str.split_head "@" (Str.lower s).
Proof.
  induction s as [|c r IH]; simpl; [done|].
  rewrite lower_ascii_at.
  destruct (Ascii.eqb c "@"); simpl; [done|].
  by rewrite IH.
Qed.

Lemma split_head_decompose (sep : ascii) (s : string) :
  exists rest,
    s = Str.split_head sep s +:+ rest
    /\ (rest = EmptyString \/ exists r, rest = String sep r).
Proof.
  induction s as [|c r IH]; simpl.
  - exists EmptyString. split; [done|by left].
  - destruct (Ascii.eqb_spec c sep) as [->|Hne]; simpl.
    + exists (String sep r). split; [done|]. right. by exists r.
    + destruct IH as (rest & Hr & Hrest). exists rest. split; [|done].
      change (String c r = String c (Str.split_head sep r +:+ rest)).
      f_equal. exact Hr.
Qed.

Lemma lower_single_digit (s d : string) :
  (d = "1" \/ d = "2") -> Str.lower s = d -> s = d.
Proof.
  intros Hd Hl.
  destruct s as [|c [|c' r]]; simpl in Hl.
  - by destruct Hd as [-> | ->].
  - destruct Hd as [-> | ->]; injection Hl as Hc; f_equal;
      revert Hc; destruct c as [[] [] [] [] [] [] [] []]; vm_compute; congruence.
  - by destruct Hd as [-> | ->].
Qed.

(** The dict the validator returns for a model name given as a string. *)
Lemma validate_on_string (values : gmap string pyval) (requested : string)
    (family : VertexMaaSModelFamily) :
  values !! "model_name" = Some (PStr requested) ->
  VertexMaaSModelFamily_call (PStr requested) = Ok family ->
  validate_environment_model_garden values
  = Ok match family with
       | LLAMA => <["model_family" := PFamily LLAMA]> values
       | MISTRAL =>
         <["model_name" := PStr (Str.split_head "@" requested)]>
           (<["full_model_name" := PStr requested]>
              (<["model_family" := PFamily MISTRAL]> values))
       end.
Proof.
  intros Hname Hcall. unfold validate_environment_model_garden.
  rewrite Hname, Hcall. by destruct family.
Qed.

(** X1: called on a string, the class resolves to LLAMA exactly the string
    "1" and the strings that lower-case to the Llama identifier, to MISTRAL
    exactly the string "2" and the strings that lower-case to one of the two
    Mistral identifiers, and raises ValueError exactly on every other string;
    for an ASCII string the message quotes the lower-cased string. *)
Theorem family_call_exact (s : string) :
  (VertexMaaSModelFamily_call (PStr s) = Ok LLAMA
   <-> s = "1" \/ Str.lower s = "meta/llama3-405b-instruct-maas")
  /\ (VertexMaaSModelFamily_call (PStr s) = Ok MISTRAL
      <-> s = "2" \/ Str.lower s = "mistral-nemo@2407"
          \/ Str.lower s = "mistral-large@2407")
  /\ ((exists msg, VertexMaaSModelFamily_call (PStr s) = Raise (ValueError msg))
      <-> s <> "1" /\ s <> "2"
          /\ Str.lower s <> "meta/llama3-405b-instruct-maas"
          /\ Str.lower s <> "mistral-nemo@2407"
          /\ Str.lower s <> "mistral-large@2407")
  /\ (Str.is_ascii s = true ->
      forall e, VertexMaaSModelFamily_call (PStr s) = Raise e ->
      e = ValueError ("Model " +:+ Str.lower s +:+ " is not supported yet!")).
Proof.
  destruct (VertexMaaSModelFamily_call_resolves s) as [Hl Hm].
  assert (Hother : s <> "1" -> s <> "2" ->
            Str.lower s <> "meta/llama3-405b-instruct-maas" ->
            Str.lower s <> "mistral-nemo@2407" ->
            Str.lower s <> "mistral-large@2407" ->
            VertexMaaSModelFamily_call (PStr s)
            = Raise (ValueError ("Model " +:+ Str.lower s +:+ " is not supported yet!"))).
  { intros H1 H2 Nl Nn Ng.
    rewrite VertexMaaSModelFamily_call_missing by done.
    by apply _missing__allow_list. }
  assert (Hraise : forall e, VertexMaaSModelFamily_call (PStr s) = Raise e ->
            s <> "1" /\ s <> "2"
            /\ Str.lower s <> "meta/llama3-405b-instruct-maas"
            /\ Str.lower s <> "mistral-nemo@2407"
            /\ Str.lower s <> "mistral-large@2407").
  { intros e Hraise. split_and!; intros E.
    - rewrite (proj2 Hl (or_introl E)) in Hraise. discriminate.
    - rewrite (proj2 Hm (or_introl E)) in Hraise. discriminate.
    - rewrite (proj2 Hl (or_intror E)) in Hraise. discriminate.
    - rewrite (proj2 Hm (or_intror (or_introl E))) in Hraise. discriminate.
    - rewrite (proj2 Hm (or_intror (or_intror E))) in Hraise. discriminate. }
  split_and!; [exact Hl | exact Hm | | ].
  - split.
    + intros [msg Hmsg]. by apply (Hraise _ Hmsg).
    + intros (H1 & H2 & Nl & Nn & Ng). eexists. by apply Hother.
  - intros _ e He.
    destruct (Hraise e He) as (H1 & H2 & Nl & Nn & Ng).
    rewrite (Hother H1 H2 Nl Nn Ng) in He. by injection He as <-.
Qed.

Lemma family_call_exact_witness :
  VertexMaaSModelFamily_call (PStr "Mistral-Large")
  = Raise (ValueError "Model mistral-large is not supported yet!").
Proof.
  destruct (VertexMaaSModelFamily_call (PStr "Mistral-Large")) as [family|e] eqn:E.
  - vm_compute in E. discriminate E.
  - f_equal.
    apply (proj2 (proj2 (proj2 (family_call_exact "Mistral-Large")))).
    + reflexivity.
    + exact E.
Defined.

(** X2: resolution does not depend on letter case: two ASCII strings that
    differ only in the case of their letters resolve alike, to the same
    family or to the same exception. *)
Theorem family_call_ignores_case (s1 s2 : string) :
  Str.is_ascii s1 = true ->
  Str.is_ascii s2 = true ->
  Str.lower s1 = Str.lower s2 ->
  VertexMaaSModelFamily_call (PStr s1) = VertexMaaSModelFamily_call (PStr s2).
Proof.
  intros _ _ Hsame.
  assert (Hlow : forall s, VertexMaaSModelFamily_call (PStr s)
                           = VertexMaaSModelFamily_call (PStr (Str.lower s))).
  { intros s.
    destruct (decide (s = "1")) as [->|H1]; [reflexivity|].
    destruct (decide (s = "2")) as [->|H2]; [reflexivity|].
    by apply VertexMaaSModelFamily_call_case_insensitive. }
  by rewrite (Hlow s1), (Hlow s2), Hsame.
Qed.

Lemma family_call_ignores_case_witness :
  VertexMaaSModelFamily_call (PStr "MISTRAL-NEMO@2407")
  = VertexMaaSModelFamily_call (PStr "Mistral-Nemo@2407").
Proof.
  apply (family_call_ignores_case "MISTRAL-NEMO@2407" "Mistral-Nemo@2407").
  - reflexivity.
  - reflexivity.
  - reflexivity.
Defined.

(** X3: the validator needs the key "model_name": without it it raises
    KeyError; with it, it raises whatever resolution raises and succeeds
    whenever resolution succeeds.  It succeeds in no other case. *)
Theorem validator_outcomes (values : gmap string pyval) :
  (values !! "model_name" = None ->
   validate_environment_model_garden values = Raise (KeyError "model_name"))
  /\ (forall requested e,
        values !! "model_name" = Some requested ->
        VertexMaaSModelFamily_call requested = Raise e ->
        validate_environment_model_garden values = Raise e)
  /\ ((exists stored, validate_environment_model_garden values = Ok stored)
      <-> exists requested family,
            values !! "model_name" = Some requested
            /\ VertexMaaSModelFamily_call requested = Ok family).
Proof.
  unfold validate_environment_model_garden.
  split; [by intros ->|].
  split; [by intros requested e -> ->|].
  split.
  - intros [stored Hs].
    destruct (values !! "model_name") as [requested|]; [|discriminate].
    destruct (VertexMaaSModelFamily_call requested) as [family|e] eqn:E;
      [|discriminate].
    by exists requested, family.
  - intros (requested & family & -> & Hcall). rewrite Hcall. simpl.
    destruct family; simpl; [eexists; reflexivity|].
    destruct requested; try (eexists; reflexivity);
      vm_compute in Hcall; discriminate Hcall.
Qed.

Lemma validator_outcomes_witness :
  validate_environment_model_garden {[ "model" := PStr "mistral-large@2407" ]}
  = Raise (KeyError "model_name")
  /\ validate_environment_model_garden {[ "model_name" := PStr "mistral-large" ]}
     = Raise (ValueError "Model mistral-large is not supported yet!").
Proof.
  split.
  - apply (proj1 (validator_outcomes {[ "model" := PStr "mistral-large@2407" ]})).
    reflexivity.
  - apply (proj1 (proj2 (validator_outcomes {[ "model_name" := PStr "mistral-large" ]}))
             (PStr "mistral-large")).
    + reflexivity.
    + reflexivity.
Defined.

(** X4: for a Mistral model given by a string, the stored model name is a
    prefix of the requested name without any '@', and what it leaves out of
    the requested name is nothing or starts with '@'; the stored full model
    name is the requested name. *)
Theorem canonical_name_is_prefix (values stored : gmap string pyval)
    (requested : string) :
  values !! "model_name" = Some (PStr requested) ->
  validate_environment_model_garden values = Ok stored ->
  stored !! "model_family" = Some (PFamily MISTRAL) ->
  exists canonical rest,
    stored !! "model_name" = Some (PStr canonical)
    /\ stored !! "full_model_name" = Some (PStr (canonical +:+ rest))
    /\ requested = canonical +:+ rest
    /\ Str.occurs "@" canonical = false
    /\ (rest = EmptyString \/ exists r, rest = String "@" r).
Proof.
  intros Hname Hval Hfam.
  destruct (VertexMaaSModelFamily_call (PStr requested)) as [family|e] eqn:Hcall.
  - rewrite (validate_on_string values requested family Hname Hcall) in Hval.
    injection Hval as <-.
    destruct family; simplify_map_eq.
    destruct (split_head_decompose "@" requested) as (rest & Hr & Hrest).
    exists (Str.split_head "@" requested), rest.
    repeat split; try done.
    + by rewrite <- Hr.
    + apply split_head_free.
  - rewrite (validate_unsupported values requested e Hname Hcall) in Hval.
    discriminate.
Qed.

Lemma canonical_name_is_prefix_witness :
  exists stored canonical rest,
    validate_environment_model_garden {[ "model_name" := PStr "Mistral-Large@2407" ]}
    = Ok stored
    /\ stored !! "model_name" = Some (PStr canonical)
    /\ "Mistral-Large@2407" = canonical +:+ rest
    /\ Str.occurs "@" canonical = false.
Proof.
  assert (Hname : ({[ "model_name" := PStr "Mistral-Large@2407" ]}
                     : gmap string pyval) !! "model_name"
                  = Some (PStr "Mistral-Large@2407")) by reflexivity.
  destruct (validate_environment_model_garden
              {[ "model_name" := PStr "Mistral-Large@2407" ]})
    as [stored|e] eqn:Hval; [|vm_compute in Hval; discriminate Hval].
  assert (Hfam : stored !! "model_family" = Some (PFamily MISTRAL)).
  { vm_compute in Hval. injection Hval as <-. reflexivity. }
  destruct (canonical_name_is_prefix _ stored _ Hname Hval Hfam)
    as (canonical & rest & H1 & H2 & H3 & H4 & H5).
  exists stored, canonical, rest. repeat split; assumption.
Defined.

(** X5: for a Llama model the validator is idempotent: validating the dict
    it returned returns that dict again. *)
Theorem revalidation_keeps_llama (values : gmap string pyval) (requested : string) :
  values !! "model_name" = Some (PStr requested) ->
  VertexMaaSModelFamily_call (PStr requested) = Ok LLAMA ->
  exists stored,
    validate_environment_model_garden values = Ok stored
    /\ validate_environment_model_garden stored = Ok stored.
Proof.
  intros Hname Hcall.
  rewrite (validate_on_string values requested LLAMA Hname Hcall).
  eexists. split; [reflexivity|].
  rewrite (validate_on_string _ requested LLAMA).
  - by rewrite insert_insert_eq.
  - by rewrite lookup_insert_ne.
  - exact Hcall.
Qed.

Lemma revalidation_keeps_llama_witness :
  exists stored,
    validate_environment_model_garden
      {[ "model_name" := PStr "meta/llama3-405b-instruct-maas" ]} = Ok stored
    /\ validate_environment_model_garden stored = Ok stored.
Proof.
  apply (revalidation_keeps_llama _ "meta/llama3-405b-instruct-maas").
  - reflexivity.
  - reflexivity.
Defined.

(** X6: for a Mistral model of the allow-list the validator is not
    idempotent: the dict it returned holds the name cut before '@', which is
    in no allow-list, so validating that dict raises ValueError. *)
Theorem revalidation_rejects_mistral (values : gmap string pyval)
    (requested : string) :
  values !! "model_name" = Some (PStr requested) ->
  Str.lower requested = "mistral-nemo@2407"
  \/ Str.lower requested = "mistral-large@2407" ->
  exists stored,
    validate_environment_model_garden values = Ok stored
    /\ validate_environment_model_garden stored
       = Raise (ValueError ("Model " +:+ Str.split_head "@" (Str.lower requested)
                            +:+ " is not supported yet!")).
Proof.
  intros Hname Hlow.
  assert (Hcall : VertexMaaSModelFamily_call (PStr requested) = Ok MISTRAL).
  { apply VertexMaaSModelFamily_call_resolves. by right. }
  rewrite (validate_on_string values requested MISTRAL Hname Hcall).
  eexists. split; [reflexivity|].
  set (canonical := Str.split_head "@" requested).
  assert (Hcanon : Str.lower canonical = "mistral-nemo"
                   \/ Str.lower canonical = "mistral-large").
  { unfold canonical. rewrite lower_split_head_at.
    destruct Hlow as [-> | ->]; [by left | by right]. }
  apply (validate_unsupported _ canonical); [apply lookup_insert_eq|].
  rewrite VertexMaaSModelFamily_call_missing.
  - rewrite <- lower_split_head_at. fold canonical.
    apply _missing__allow_list; destruct Hcanon as [-> | ->]; discriminate.
  - intros E. rewrite E in Hcanon. destruct Hcanon as [H|H]; discriminate H.
  - intros E. rewrite E in Hcanon. destruct Hcanon as [H|H]; discriminate H.
Qed.

Lemma revalidation_rejects_mistral_witness :
  exists stored,
    validate_environment_model_garden {[ "model_name" := PStr "mistral-large@2407" ]}
    = Ok stored
    /\ validate_environment_model_garden stored
       = Raise (ValueError "Model mistral-large is not supported yet!").
Proof.
  apply (revalidation_rejects_mistral _ "mistral-large@2407").
  - reflexivity.
  - right. reflexivity.
Defined.

(** ** Request builder *)

(** X7: normalising parameters twice is normalising them once, and the keys
    of the result are the caller's keys without "safe_prompt", with "model". *)
Theorem enriched_idempotent (self : _BaseVertexMaasModelGarden)
    (params : gmap string pyval) :
  enriched self (enriched self params) = enriched self params
  /\ dom (enriched self params) = {[ "model" ]} ∪ (dom params ∖ {[ "safe_prompt" ]}).
Proof.
  split.
  - apply map_eq. intros key. rewrite !enriched_lookup.
    by repeat case_decide.
  - unfold enriched. by rewrite dom_insert_L, dom_delete_L.
Qed.

(** X8: the payloads built by successive calls of [_enrich_params] on one
    parameter object are pairwise distinct objects, none of which existed
    before the calls. *)
Theorem enrich_params_payloads_distinct (self : _BaseVertexMaasModelGarden)
    (params : positive) (d : gmap string pyval) (n : nat)
    (h h1 : gmap positive (gmap string pyval)) (qs : list positive) :
  h !! params = Some d ->
  Heap.enrich_calls self params n h = Some (qs, h1) ->
  NoDup qs /\ Forall (fun q => h !! q = None) qs.
Proof.
  revert h h1 qs. induction n as [|n IH]; intros h h1 qs Hd Hcalls; simpl in Hcalls.
  - injection Hcalls as <- <-. split; constructor.
  - destruct (HeapFacts._enrich_params_once self params d h Hd)
      as (q & h' & Hcall & Hne & Hfresh & Hq & Hframe).
    rewrite Hcall in Hcalls.
    destruct (Heap.enrich_calls self params n h') as [[qs' h2]|] eqn:Hrest;
      [|discriminate].
    injection Hcalls as <- <-.
    assert (Hd' : h' !! params = Some d).
    { rewrite Hframe; [exact Hd | congruence]. }
    destruct (IH h' h2 qs' Hd' Hrest) as (Hnodup & Hall).
    assert (Hnotin : q ∉ qs').
    { intros Hin. rewrite Forall_forall in Hall.
      specialize (Hall q Hin). congruence. }
    split.
    + by constructor.
    + constructor; [exact Hfresh|].
      rewrite Forall_forall in Hall |- *. intros q' Hin.
      rewrite <- Hframe; [by apply Hall|].
      intros ->. by apply Hnotin.
Qed.

Lemma enrich_params_payloads_distinct_witness :
  exists qs h1,
    Heap.enrich_calls unresolved_llm 1%positive 3 {[ 1%positive := caller_dict ]}
    = Some (qs, h1)
    /\ NoDup qs.
Proof.
  destruct (Heap.enrich_calls unresolved_llm 1%positive 3
              {[ 1%positive := caller_dict ]}) as [[qs h1]|] eqn:Hcalls;
    [|vm_compute in Hcalls; discriminate Hcalls].
  exists qs, h1. split; [reflexivity|].
  apply (enrich_params_payloads_distinct unresolved_llm 1%positive caller_dict 3
           {[ 1%positive := caller_dict ]} h1 qs).
  - reflexivity.
  - exact Hcalls.
Defined.

(** X9: the stream flag changes the URL path exactly for the Mistral family:
    its two paths always differ, and for every other family value the two
    paths are the same. *)
Theorem stream_flag_selects_path (llm : _BaseVertexMaasModelGarden) :
  _get_url_part llm true <> _get_url_part llm false
  <-> model_family llm = Some MISTRAL.
Proof.
  unfold _get_url_part.
  destruct (model_family llm) as [[]|]; simpl.
  - split; [intros H; by destruct H | discriminate].
  - split; [done|]. intros _ E.
    apply (inj (String.app _)) in E.
    apply (inj (String.app _)) in E.
    discriminate E.
  - split; [intros H; by destruct H | discriminate].
Qed.

(** ** Status check *)

(** X10: the status check lets a response through exactly when its status
    code is below 400 or above 599, in the synchronous and in the
    asynchronous variant. *)
Theorem status_check_passes_iff (r : Response) :
  (_raise_on_error r = Ok tt <-> status_code r < 400 \/ 599 < status_code r)
  /\ (_araise_on_error r = Ok tt <-> status_code r < 400 \/ 599 < status_code r).
Proof.
  assert (H : _raise_on_error r = Ok tt
              <-> status_code r < 400 \/ 599 < status_code r).
  { unfold _raise_on_error, is_error, Str.decode_utf8.
    destruct (400 <=? status_code r) eqn:E1;
      destruct (status_code r <=? 599) eqn:E2; simpl;
      try (split; [intros _; lia | reflexivity]).
    split; [|lia].
    destruct (Str.utf8_valid (content r)); discriminate. }
  split; exact H.
Qed.

(** ** Server-sent events *)

(** X12: whatever the events, the loop reads no more events than there are,
    calls [json()] only on events it has read and never on an event whose
    data is the sentinel, yields at most one record per decoded event and
    exactly one when it ends normally, and ends abnormally only with the
    decoding error. *)
Theorem sse_loop_invariants (evs : list sse_event) :
  let o := sse_loop evs in
  (events_read o <= length evs)%nat
  /\ (length (decoded o) <= events_read o)%nat
  /\ (length (yielded o) <= length (decoded o))%nat
  /\ (decoded o `prefix_of` map data evs)
  /\ ("[DONE]" ∉ decoded o)
  /\ (raised o = None -> length (yielded o) = length (decoded o))
  /\ (forall e, raised o = Some e -> e = JSONDecodeError).
Proof.
  induction evs as [|ev rest IH]; simpl.
  - split_and!; [lia | lia | lia | apply prefix_nil | apply not_elem_of_nil
                | done | done].
  - destruct (String.eqb_spec (data ev) "[DONE]") as [Hd|Hd]; simpl.
    { split_and!; [lia | lia | lia | apply prefix_nil | apply not_elem_of_nil
                  | done | done]. }
    destruct (event_json ev) as [record|]; simpl.
    + destruct IH as (H1 & H2 & H3 & H4 & H5 & H6 & H7).
      split_and!; [lia | lia | lia | | | | exact H7].
      * by apply prefix_cons.
      * rewrite not_elem_of_cons. split; [congruence|exact H5].
      * intros Hn. by rewrite (H6 Hn).
    + split_and!; [lia | lia | lia | | | done | ].
      * apply prefix_cons, prefix_nil.
      * rewrite not_elem_of_cons. split; [congruence|apply not_elem_of_nil].
      * by intros e [= <-].
Qed.

(** What consuming a streaming call observes when the connection is answered
    with a status that is no error. *)
Lemma consume_stream_answered llm kwargs log x :
  truthy (stream_of kwargs) = true ->
  client llm (length log) = Ok x ->
  async_client llm (length log) = Ok x ->
  is_error (status_code (response x)) = false ->
  fst (consume (completion_with_retry llm kwargs) log) = Streamed (sse_loop (events x))
  /\ fst (consume (acompletion_with_retry llm kwargs) log)
     = Streamed (sse_loop (events x)).
Proof.
  intros Hs Hc Ha Hok.
  rewrite consume_completion_stream, consume_acompletion_stream by done.
  rewrite Hc, Ha. unfold drain, _raise_on_error, _araise_on_error.
  by rewrite Hok.
Qed.

(** X13: when the server closes an event stream that holds no sentinel, the
    generator of either entry point yields the decoded record of every event,
    in order, and ends normally. *)
Theorem stream_without_sentinel (llm : _BaseVertexMaasModelGarden)
    (kwargs : gmap string pyval) (log : list Request) (x : Exchange)
    (records : list pyval) :
  truthy (default (PBool false) (kwargs !! "stream")) = true ->
  client llm (length log) = Ok x ->
  async_client llm (length log) = Ok x ->
  is_error (status_code (response x)) = false ->
  Forall (fun ev => data ev <> "[DONE]") (events x) ->
  Forall2 (fun ev record => event_json ev = Some record) (events x) records ->
  let seen :=
    Streamed {| yielded := records; events_read := length (events x);
                decoded := map data (events x); raised := None |} in
  fst (consume (completion_with_retry llm kwargs) log) = seen
  /\ fst (consume (acompletion_with_retry llm kwargs) log) = seen.
Proof.
  intros Hs Hc Ha Hok Hno Hjson seen.
  destruct (consume_stream_answered llm kwargs log x Hs Hc Ha Hok) as [-> ->].
  subst seen. by rewrite (sse_loop_without_done (events x) records).
Qed.

Lemma stream_without_sentinel_witness :
  let seen :=
    Streamed {| yielded := [PInt 17; PList [PInt 1]]; events_read := 2;
                decoded := ["17"; "[1]"]; raised := None |} in
  fst (consume (completion_with_retry (llama_llm (answering unterminated_events))
                  {[ "stream" := PBool true ]}) []) = seen
  /\ fst (consume (acompletion_with_retry (llama_llm (answering unterminated_events))
                     {[ "stream" := PBool true ]}) []) = seen.
Proof.
  apply (stream_without_sentinel (llama_llm (answering unterminated_events))
           {[ "stream" := PBool true ]} []
           {| response := response sample_exchange; events := unterminated_events |}
           [PInt 17; PList [PInt 1]]).
  - reflexivity.
  - reflexivity.
  - reflexivity.
  - reflexivity.
  - repeat constructor; discriminate.
  - repeat constructor.
Defined.

(** X14: an event before any sentinel whose data is no JSON makes the
    generator of either entry point raise the decoding error after it has
    yielded the records of the events before it; nothing after that event is
    read. *)
Theorem stream_undecodable_event (llm : _BaseVertexMaasModelGarden)
    (kwargs : gmap string pyval) (log : list Request) (x : Exchange)
    (pre post : list sse_event) (bad : sse_event) (records : list pyval) :
  truthy (default (PBool false) (kwargs !! "stream")) = true ->
  client llm (length log) = Ok x ->
  async_client llm (length log) = Ok x ->
  is_error (status_code (response x)) = false ->
  events x = pre ++ bad :: post ->
  Forall (fun ev => data ev <> "[DONE]") pre ->
  Forall2 (fun ev record => event_json ev = Some record) pre records ->
  data bad <> "[DONE]" ->
  event_json bad = None ->
  let seen :=
    Streamed {| yielded := records; events_read := S (length pre);
                decoded := map data pre ++ [data bad];
                raised := Some JSONDecodeError |} in
  fst (consume (completion_with_retry llm kwargs) log) = seen
  /\ fst (consume (acompletion_with_retry llm kwargs) log) = seen.
Proof.
  intros Hs Hc Ha Hok Hev Hno Hjson Hbad Hnone seen.
  destruct (consume_stream_answered llm kwargs log x Hs Hc Ha Hok) as [-> ->].
  subst seen. rewrite Hev.
  by rewrite (sse_loop_undecodable pre post bad records).
Qed.

Lemma stream_undecodable_event_witness :
  let seen :=
    Streamed {| yielded := [PInt 17]; events_read := 2;
                decoded := ["17"; "[DONE"]; raised := Some JSONDecodeError |} in
  fst (consume (completion_with_retry (llama_llm (answering garbled_events))
                  {[ "stream" := PBool true ]}) []) = seen
  /\ fst (consume (acompletion_with_retry (llama_llm (answering garbled_events))
                     {[ "stream" := PBool true ]}) []) = seen.
Proof.
  apply (stream_undecodable_event (llama_llm (answering garbled_events))
           {[ "stream" := PBool true ]} []
           {| response := response sample_exchange; events := garbled_events |}
           [ {| data := "17"; event_json := Some (PInt 17) |} ]
           [ {| data := "18"; event_json := Some (PInt 18) |} ]
           {| data := "[DONE"; event_json := None |}
           [PInt 17]).
  - reflexivity.
  - reflexivity.
  - reflexivity.
  - reflexivity.
  - reflexivity.
  - repeat constructor; discriminate.
  - repeat constructor.
  - discriminate.
  - reflexivity.
Defined.

(** X15: a streaming call is lazy on both entry points: the call returns a
    generator, raises nothing and sends no request, whatever the client would
    answer; the one request is sent when the generator is consumed. *)
Theorem streaming_call_is_lazy (llm : _BaseVertexMaasModelGarden)
    (kwargs : gmap string pyval) (log : list Request) :
  truthy (default (PBool false) (kwargs !! "stream")) = true ->
  (exists g, completion_with_retry llm kwargs log = (Ok (Lazy g), log))
  /\ (exists g, acompletion_with_retry llm kwargs log = (Ok (Lazy g), log))
  /\ length (snd (consume (completion_with_retry llm kwargs) log)) = S (length log)
  /\ length (snd (consume (acompletion_with_retry llm kwargs) log)) = S (length log).
Proof.
  intros Hs. repeat split.
  - eexists. by apply completion_with_retry_stream.
  - eexists. by apply acompletion_with_retry_stream.
  - rewrite consume_completion_stream by done. simpl.
    rewrite length_app. simpl. lia.
  - rewrite consume_acompletion_stream by done. simpl.
    rewrite length_app. simpl. lia.
Qed.

Lemma streaming_call_is_lazy_witness :
  (exists g, completion_with_retry (llama_llm unreachable)
               {[ "stream" := PBool true ]} [] = (Ok (Lazy g), []))
  /\ (exists g, acompletion_with_retry (llama_llm unreachable)
                  {[ "stream" := PBool true ]} [] = (Ok (Lazy g), [])).
Proof.
  destruct (streaming_call_is_lazy (llama_llm unreachable)
              {[ "stream" := PBool true ]} []) as (H1 & H2 & _).
  - reflexivity.
  - split; assumption.
Defined.

(** ** The retry loop of the asynchronous entry point *)

Section RetryLoop.

Context {A : Type}.
Variable retryable : exn -> bool.

Lemma retrying_zero (f : M A) log : retrying retryable 0 f log = f log.
Proof.
  simpl. destruct (f log) as [[a|e] log1]; [done|].
  by destruct (retryable e).
Qed.

Lemma final_or_retried (o : result A) : final retryable o \/ retried retryable o.
Proof.
  destruct o as [a|e]; simpl; [by left|].
  destruct (retryable e); [by right | by left].
Qed.

Variable answer : nat -> result A.
Variable req : Request.
Variable f : M A.
Hypothesis f_run : forall log, f log = (answer (length log), log ++ [req]).

(** The loop stops at the first attempt whose outcome is final, or at the
    last attempt allowed. *)
Lemma retrying_stops n log :
  exists k,
    (k <= n)%nat
    /\ retrying retryable n f log
       = (answer (length log + k)%nat, log ++ replicate (S k) req)
    /\ (forall i, (i < k)%nat -> retried retryable (answer (length log + i)%nat))
    /\ ((k < n)%nat -> final retryable (answer (length log + k)%nat)).
Proof.
  revert log. induction n as [|n IH]; intros log.
  - exists 0%nat. split_and!; [lia | | intros i Hi; lia | lia].
    rewrite retrying_zero, f_run, Nat.add_0_r. reflexivity.
  - destruct (final_or_retried (answer (length log))) as [Hfin|Hret].
    + exists 0%nat. split_and!; [lia | | intros i Hi; lia | ].
      * apply (retrying_until_final retryable answer req f f_run); [lia | |].
        -- intros i Hi. lia.
        -- by rewrite Nat.add_0_r.
      * intros _. by rewrite Nat.add_0_r.
    + destruct (answer (length log)) as [a|e] eqn:E; [done|]. simpl in Hret.
      destruct (IH (log ++ [req])) as (k & Hk & Hrun & Hbefore & Hfinal).
      rewrite length_app in Hrun, Hbefore, Hfinal. simpl in Hrun, Hbefore, Hfinal.
      exists (S k). split_and!.
      * lia.
      * rewrite (retrying_again retryable n f log e (log ++ [req]));
          [|by rewrite f_run, E|exact Hret].
        rewrite Hrun.
        replace (length log + 1 + k)%nat with (length log + S k)%nat by lia.
        f_equal. rewrite <- app_assoc. reflexivity.
      * intros i Hi. destruct i as [|i].
        -- rewrite Nat.add_0_r, E. exact Hret.
        -- replace (length log + S i)%nat with (length log + 1 + i)%nat by lia.
           apply Hbefore. lia.
      * intros Hlt.
        replace (length log + S k)%nat with (length log + 1 + k)%nat by lia.
        apply Hfinal. lia.
Qed.

End RetryLoop.

(** A non-streaming attempt is retried only when the client itself raised a
    transport-level exception. *)
Lemma settle_retried (answer : result Exchange) :
  retried transport_error (settle _araise_on_error answer) ->
  exists e, answer = Raise e /\ transport_error e = true.
Proof.
  unfold settle. destruct answer as [x|e]; simpl.
  - destruct (_araise_on_error (response x)) as [[]|e] eqn:Ee; simpl.
    + unfold response_json. by destruct (json (response x)).
    + intros Hr. unfold transport_error in Hr. simpl in Hr.
      change (_raise_on_error (response x) = Raise e) in Ee.
      destruct (_raise_on_error_final _ _ Ee) as [H1 H2].
      rewrite H1, H2 in Hr. discriminate Hr.
  - intros Hr. by exists e.
Qed.

(** X16: a non-streaming call on the asynchronous entry point sends between
    one and max(1, max_retries) requests, all of them the same request; every
    attempt but the last failed in the client with a transport-level
    exception, and the call ends as the last attempt ended. *)
Theorem async_attempts_bounded (llm : _BaseVertexMaasModelGarden)
    (kwargs : gmap string pyval) (log : list Request) :
  truthy (default (PBool false) (kwargs !! "stream")) = false ->
  exists k,
    Z.of_nat (S k) <= Z.max 1 (max_retries llm)
    /\ acompletion_with_retry llm kwargs log
       = (settle _araise_on_error (async_client llm (length log + k)%nat),
          log ++ replicate (S k)
                   (post_request (_get_url_part llm false) (payload llm kwargs)))
    /\ (forall i, (i < k)%nat ->
          exists e, async_client llm (length log + i)%nat = Raise e
                    /\ transport_error e = true).
Proof.
  intros Hs.
  destruct (retrying_stops transport_error
              (fun i => settle _araise_on_error (async_client llm i))
              (post_request (_get_url_part llm false) (payload llm kwargs))
              (_completion_with_retry llm (enriched llm kwargs))
              (fun log' => _completion_with_retry_plain llm kwargs log' Hs)
              (Z.to_nat (max_retries llm - 1)) log)
    as (k & Hk & Hrun & Hbefore & _).
  exists k. split_and!.
  - lia.
  - exact Hrun.
  - intros i Hi. apply settle_retried. by apply Hbefore.
Qed.

Lemma async_attempts_bounded_witness :
  exists k,
    Z.of_nat (S k) <= 3
    /\ length (snd (acompletion_with_retry (llama_llm unreachable) ∅ [])) = S k.
Proof.
  destruct (async_attempts_bounded (llama_llm unreachable) ∅ [])
    as (k & Hk & Hrun & _).
  - reflexivity.
  - exists k. split; [exact Hk|].
    rewrite Hrun. simpl. by rewrite length_replicate.
Defined.

(** X17: on the asynchronous entry point, a non-streaming call whose first
    [k] attempts fail in the client with transport-level exceptions, while
    attempt [k+1] is within max(1, max_retries) and is answered with a status
    that is no error and a JSON body, returns the decoded body after [k+1]
    requests. *)
Theorem async_retries_until_answer (llm : _BaseVertexMaasModelGarden)
    (kwargs : gmap string pyval) (log : list Request) (k : nat)
    (x : Exchange) (record : pyval) :
  truthy (default (PBool false) (kwargs !! "stream")) = false ->
  Z.of_nat (S k) <= Z.max 1 (max_retries llm) ->
  (forall i, (i < k)%nat ->
     exists e, async_client llm (length log + i)%nat = Raise e
               /\ transport_error e = true) ->
  async_client llm (length log + k)%nat = Ok x ->
  is_error (status_code (response x)) = false ->
  json (response x) = Some record ->
  consume (acompletion_with_retry llm kwargs) log
  = (Returned record,
     log ++ replicate (S k)
              (post_request (_get_url_part llm false) (payload llm kwargs))).
Proof.
  intros Hs Hk Hbefore Hx Hok Hjson.
  apply (acompletion_retries_transport_errors llm kwargs Hs log k x record);
    try done.
  unfold attempts. lia.
Qed.

Lemma async_retries_until_answer_witness :
  fst (consume (acompletion_with_retry (llama_llm (recovering 2)) ∅) [])
  = Returned (PList [PInt 1]).
Proof.
  rewrite (async_retries_until_answer (llama_llm (recovering 2)) ∅ [] 2
             sample_exchange (PList [PInt 1])).
  - reflexivity.
  - reflexivity.
  - simpl. lia.
  - intros i Hi. destruct i as [|[|i]]; [| |lia];
      (eexists; split; reflexivity).
  - reflexivity.
  - reflexivity.
  - reflexivity.
Defined.

(** X18: on the asynchronous entry point, a non-streaming call all of whose
    max(1, max_retries) attempts fail in the client with transport-level
    exceptions raises the exception of the last attempt, after exactly that
    many requests. *)
Theorem async_gives_up (llm : _BaseVertexMaasModelGarden)
    (kwargs : gmap string pyval) (log : list Request) :
  truthy (default (PBool false) (kwargs !! "stream")) = false ->
  (forall i, Z.of_nat (S i) <= Z.max 1 (max_retries llm) ->
     exists e, async_client llm (length log + i)%nat = Raise e
               /\ transport_error e = true) ->
  exists e n,
    Z.of_nat n = Z.max 1 (max_retries llm)
    /\ async_client llm (length log + (n - 1))%nat = Raise e
    /\ consume (acompletion_with_retry llm kwargs) log
       = (Failed e,
          log ++ replicate n
                   (post_request (_get_url_part llm false) (payload llm kwargs))).
Proof.
  intros Hs Hall.
  destruct (acompletion_gives_up llm kwargs Hs log) as (e & He & Hrun).
  - intros i Hi. apply Hall. unfold attempts in Hi. lia.
  - exists e, (attempts llm). split_and!; [unfold attempts; lia | exact He | exact Hrun].
Qed.

Lemma async_gives_up_witness :
  exists e n,
    Z.of_nat n = 3
    /\ fst (consume (acompletion_with_retry (llama_llm unreachable) ∅) []) = Failed e
    /\ length (snd (consume (acompletion_with_retry (llama_llm unreachable) ∅) [])) = n.
Proof.
  destruct (async_gives_up (llama_llm unreachable) ∅ []) as (e & n & Hn & _ & Hrun).
  - reflexivity.
  - intros i _. eexists. split; reflexivity.
  - exists e, n. split; [exact Hn|].
    rewrite Hrun. simpl. split; [reflexivity|]. by rewrite length_replicate.
Defined.

(** ** The two entry points side by side *)

(** X11: a non-streaming call answered with an error status raises after a
    single request on both entry points: [HTTPStatusError], carrying the
    response and the message built from status code, URL and body, when the
    body is UTF-8, and [UnicodeDecodeError] when it is not.  The retry policy
    makes no further attempt. *)
Theorem error_status_fails_once (llm : _BaseVertexMaasModelGarden)
    (kwargs : gmap string pyval) (log : list Request) (x : Exchange) :
  truthy (default (PBool false) (kwargs !! "stream")) = false ->
  client llm (length log) = Ok x ->
  async_client llm (length log) = Ok x ->
  is_error (status_code (response x)) = true ->
  let e :=
    if Str.utf8_valid (content (response x))
    then HTTPStatusError
           ("Error response " +:+ pretty (status_code (response x))
            +:+ " while fetching " +:+ url (response x)
            +:+ ": " +:+ content (response x))
           (response x)
    else UnicodeDecodeError in
  let seen :=
    (Failed e,
     log ++ [post_request (_get_url_part llm false) (payload llm kwargs)]) in
  consume (completion_with_retry llm kwargs) log = seen
  /\ consume (acompletion_with_retry llm kwargs) log = seen.
Proof.
  intros Hs Hc Ha Herr e seen.
  assert (Hcheck : _raise_on_error (response x) = Raise e).
  { unfold _raise_on_error, Str.decode_utf8. rewrite Herr. subst e.
    by destruct (Str.utf8_valid (content (response x))). }
  split.
  - unfold consume. rewrite completion_with_retry_plain by done.
    rewrite Hc. unfold settle. simpl. by rewrite Hcheck.
  - by apply (acompletion_error_status_not_retried llm kwargs Hs log x e).
Qed.

Lemma error_status_fails_once_witness :
  let e :=
    HTTPStatusError
      "Error response 500 while fetching https://host/openapi/chat/completions: quota exceeded"
      utf8_error in
  fst (consume (completion_with_retry
                  (llama_llm (fun _ => Ok {| response := utf8_error; events := [] |}))
                  ∅) []) = Failed e
  /\ fst (consume (acompletion_with_retry
                     (llama_llm (fun _ => Ok {| response := utf8_error; events := [] |}))
                     ∅) []) = Failed e
  /\ length (snd (consume (acompletion_with_retry
                             (llama_llm (fun _ => Ok {| response := utf8_error;
                                                        events := [] |}))
                             ∅) [])) = 1%nat.
Proof.
  destruct (error_status_fails_once
              (llama_llm (fun _ => Ok {| response := utf8_error; events := [] |}))
              ∅ [] {| response := utf8_error; events := [] |}) as [H1 H2].
  - reflexivity.
  - reflexivity.
  - reflexivity.
  - reflexivity.
  - rewrite H1, H2. repeat split; reflexivity.
Defined.

(** X19: a non-streaming call answered with a status that is no error and a
    body that is no JSON raises the decoding error after one request on both
    entry points: the retry policy does not retry it. *)
Theorem undecodable_body_fails_once (llm : _BaseVertexMaasModelGarden)
    (kwargs : gmap string pyval) (log : list Request) (x : Exchange) :
  truthy (default (PBool false) (kwargs !! "stream")) = false ->
  client llm (length log) = Ok x ->
  async_client llm (length log) = Ok x ->
  is_error (status_code (response x)) = false ->
  json (response x) = None ->
  let seen :=
    (Failed JSONDecodeError,
     log ++ [post_request (_get_url_part llm false) (payload llm kwargs)]) in
  consume (completion_with_retry llm kwargs) log = seen
  /\ consume (acompletion_with_retry llm kwargs) log = seen.
Proof.
  intros Hs Hc Ha Hok Hjson seen.
  assert (Hsettle : forall check,
             check (response x) = Ok tt ->
             settle check (Ok x) = Raise JSONDecodeError).
  { intros check Hcheck. unfold settle, response_json. simpl.
    by rewrite Hcheck, Hjson. }
  assert (Hpass : _raise_on_error (response x) = Ok tt)
    by (by apply _raise_on_error_pass).
  split.
  - unfold consume. rewrite completion_with_retry_plain by done.
    by rewrite Hc, (Hsettle _ Hpass).
  - unfold consume.
    rewrite (acompletion_with_retry_until_final llm kwargs Hs log 0).
    + rewrite Nat.add_0_r, Ha, (Hsettle _araise_on_error Hpass). reflexivity.
    + unfold attempts. lia.
    + intros i Hi. lia.
    + rewrite Nat.add_0_r, Ha, (Hsettle _araise_on_error Hpass). reflexivity.
Qed.

Lemma undecodable_body_fails_once_witness :
  fst (consume (completion_with_retry (llama_llm (fun _ => Ok html_exchange)) ∅) [])
  = Failed JSONDecodeError
  /\ fst (consume (acompletion_with_retry (llama_llm (fun _ => Ok html_exchange)) ∅) [])
     = Failed JSONDecodeError.
Proof.
  destruct (undecodable_body_fails_once (llama_llm (fun _ => Ok html_exchange))
              ∅ [] html_exchange) as [H1 H2].
  - reflexivity.
  - reflexivity.
  - reflexivity.
  - reflexivity.
  - reflexivity.
  - rewrite H1, H2. split; reflexivity.
Defined.

(** X20: with max_retries at most 1 the asynchronous entry point makes a
    single attempt, so that the two entry points observe the same on every
    call, a transport-level failure included. *)
Theorem single_attempt_entry_points_agree (llm : _BaseVertexMaasModelGarden)
    (kwargs : gmap string pyval) (log : list Request) :
  max_retries llm <= 1 ->
  client llm (length log) = async_client llm (length log) ->
  consume (completion_with_retry llm kwargs) log
  = consume (acompletion_with_retry llm kwargs) log.
Proof.
  intros Hmax Hsame.
  destruct (truthy (stream_of kwargs)) eqn:Hs.
  - rewrite consume_completion_stream, consume_acompletion_stream by done.
    by rewrite Hsame.
  - unfold consume.
    rewrite completion_with_retry_plain by done.
    unfold acompletion_with_retry, _create_retry_decorator,
      create_base_retry_decorator.
    replace (Z.to_nat (max_retries llm - 1)) with 0%nat by lia.
    rewrite retrying_zero, _completion_with_retry_plain by done.
    rewrite Hsame. reflexivity.
Qed.

Lemma single_attempt_entry_points_agree_witness :
  consume (completion_with_retry (single_shot_llm flaky) ∅) []
  = consume (acompletion_with_retry (single_shot_llm flaky) ∅) [].
Proof.
  apply (single_attempt_entry_points_agree (single_shot_llm flaky) ∅ []).
  - simpl. lia.
  - reflexivity.
Defined.

(** X21: when both clients answer the first request of a call alike, and that
    answer is not a transport-level exception on a non-streaming call, the
    two entry points observe the same: the same result or exception and the
    same requests. *)
Theorem first_attempt_decides (llm : _BaseVertexMaasModelGarden)
    (kwargs : gmap string pyval) (log : list Request) :
  client llm (length log) = async_client llm (length log) ->
  (truthy (default (PBool false) (kwargs !! "stream")) = false ->
   forall e, client llm (length log) = Raise e -> transport_error e = false) ->
  consume (completion_with_retry llm kwargs) log
  = consume (acompletion_with_retry llm kwargs) log.
Proof.
  intros Hsame Hfirst. by apply entry_points_agree.
Qed.

Lemma first_attempt_decides_witness :
  consume (completion_with_retry (llama_llm steady) ∅) []
  = consume (acompletion_with_retry (llama_llm steady) ∅) [].
Proof.
  apply (first_attempt_decides (llama_llm steady) ∅ []).
  - reflexivity.
  - intros _ e H. discriminate H.
Defined.

(** X22: a non-streaming call answered at once with a status that is no error
    and a JSON body returns the decoded body after one request, on both
    entry points. *)
Theorem answered_call_returns_body (llm : _BaseVertexMaasModelGarden)
    (kwargs : gmap string pyval) (log : list Request) (x : Exchange)
    (record : pyval) :
  truthy (default (PBool false) (kwargs !! "stream")) = false ->
  client llm (length log) = Ok x ->
  async_client llm (length log) = Ok x ->
  is_error (status_code (response x)) = false ->
  json (response x) = Some record ->
  let seen :=
    (Returned record,
     log ++ [post_request (_get_url_part llm false) (payload llm kwargs)]) in
  consume (completion_with_retry llm kwargs) log = seen
  /\ consume (acompletion_with_retry llm kwargs) log = seen.
Proof.
  intros Hs Hc Ha Hok Hjson seen. split.
  - unfold consume. rewrite completion_with_retry_plain by done.
    rewrite Hc. unfold settle, response_json. simpl.
    by rewrite _raise_on_error_pass, Hjson.
  - rewrite (acompletion_retries_transport_errors llm kwargs Hs log 0 x record);
      try done.
    + unfold attempts. lia.
    + intros i Hi. lia.
    + by rewrite Nat.add_0_r.
Qed.

Lemma answered_call_returns_body_witness :
  fst (consume (completion_with_retry (llama_llm steady) ∅) [])
  = Returned (PList [PInt 1])
  /\ fst (consume (acompletion_with_retry (llama_llm steady) ∅) [])
     = Returned (PList [PInt 1]).
Proof.
  destruct (answered_call_returns_body (llama_llm steady) ∅ [] sample_exchange
              (PList [PInt 1])) as [H1 H2].
  - reflexivity.
  - reflexivity.
  - reflexivity.
  - reflexivity.
  - reflexivity.
  - rewrite H1, H2. split; reflexivity.
Defined.

(** ** Credentials *)

(** X23: [_get_token] returns a token exactly when refreshing the selected
    credentials leaves a non-empty token in them, and it returns that token:
    never an empty one. *)
Theorem get_token_returns (adc : result (Credentials * option string))
    (credentials : option Credentials) (t : string) :
  _get_token adc credentials = Ok t
  <-> exists c, selected adc credentials c
                /\ refreshed c = Ok (Some t)
                /\ t <> EmptyString.
Proof.
  unfold _get_token, selected. split.
  - destruct credentials as [given|]; simpl.
    + intros H. exists given. split; [done|].
      destruct (refreshed given) as [[text|]|e]; simpl in H; try discriminate.
      destruct (String.eqb_spec text EmptyString); [discriminate|].
      by injection H as ->.
    + destruct adc as [[c project]|e]; simpl; [|discriminate].
      intros H. exists c. split; [by exists project|].
      destruct (refreshed c) as [[text|]|e]; simpl in H; try discriminate.
      destruct (String.eqb_spec text EmptyString); [discriminate|].
      by injection H as ->.
  - intros (c & Hsel & Href & Hne).
    destruct credentials as [given|]; simpl.
    + subst given. rewrite Href. simpl.
      by destruct (String.eqb_spec t EmptyString).
    + destruct Hsel as [project ->]. simpl. rewrite Href. simpl.
      by destruct (String.eqb_spec t EmptyString).
Qed.

(** X24: [_get_token] fails in three ways only: the default credentials are
    needed and looking them up raises; refreshing the selected credentials
    raises; or the refresh leaves no token or an empty one, which raises
    ValueError.  Credentials that are given make the default ones irrelevant. *)
Theorem get_token_fails (adc : result (Credentials * option string))
    (credentials : option Credentials) (e : exn) :
  (_get_token adc credentials = Raise e
   <-> (credentials = None /\ adc = Raise e)
       \/ exists c, selected adc credentials c
                    /\ (refreshed c = Raise e
                        \/ e = ValueError "Couldn't retrieve a token!"
                           /\ (refreshed c = Ok None
                               \/ refreshed c = Ok (Some EmptyString))))
  /\ (forall given adc',
        _get_token adc (Some given) = _get_token adc' (Some given)).
Proof.
  split; [|reflexivity].
  unfold _get_token, selected. split.
  - destruct credentials as [given|]; simpl.
    + intros H. right. exists given. split; [done|].
      destruct (refreshed given) as [[text|]|e']; simpl in H.
      * destruct (String.eqb_spec text EmptyString) as [Hempty|]; [|discriminate].
        injection H as <-. right. split; [done|]. right. by rewrite Hempty.
      * injection H as <-. right. split; [done|by left].
      * injection H as <-. by left.
    + destruct adc as [[c project]|e']; simpl.
      * intros H. right. exists c. split; [by exists project|].
        destruct (refreshed c) as [[text|]|e'']; simpl in H.
        -- destruct (String.eqb_spec text EmptyString) as [Hempty|]; [|discriminate].
           injection H as <-. right. split; [done|]. right. by rewrite Hempty.
        -- injection H as <-. right. split; [done|by left].
        -- injection H as <-. by left.
      * intros [= <-]. by left.
  - intros [[-> ->] | (c & Hsel & Hwhy)]; [done|].
    assert (Hc : bind (refreshed c) (fun token =>
                   match token with
                   | None => Raise (ValueError "Couldn't retrieve a token!")
                   | Some text =>
                     if String.eqb text EmptyString
                     then Raise (ValueError "Couldn't retrieve a token!")
                     else Ok text
                   end) = Raise e).
    { destruct Hwhy as [-> | [-> [-> | ->]]]; reflexivity. }
    destruct credentials as [given|]; simpl.
    + by subst given.
    + by destruct Hsel as [project ->].
Qed.

Example get_token_samples :
  _get_token no_default (Some revoked_account)
  = Raise (ValueError "Couldn't retrieve a token!")
  /\ _get_token no_default (Some service_account) = Ok "ya29.token"
  /\ _get_token no_default None
     = Raise (ValueError "default credentials were not found").
Proof. repeat split; reflexivity. Qed.
